(** * edge_ha: the edge-discovery lambdas, embedded and verified

    A shallow embedding of the Python sources

      - [backend_apis/master_edge_details.py]   (the Aggregator),
      - [backend_apis/get_localzones_details.py] and
        [backend_apis/get_outposts_details.py]   (the two collectors),
      - [bedrock_apis/get_parent_az.py]          (Parent-Zone Lookup),

    together with the properties their specification states about them.

    Python values are an inductive type of JSON-like documents; a [dict]
    is an association list in insertion order (the loops of the
    Aggregator follow that order); a [set] of strings is a [gset string];
    a raised exception is the [Raise] branch of an error monad. *)

From Stdlib Require Import ZArith String Ascii DecimalString SpecFloat.
From stdpp Require Import base decidable option list sets gmap strings sorting.

Set Warnings "-register-all".
Local Open Scope string_scope.
Local Open Scope Z_scope.
Local Open Scope list_scope.

(* ================================================================== *)
(** * Python values and the operations the sources apply to them *)
(* ================================================================== *)

Module Py.

(** What [json.loads] produces, and what the handlers build. *)
Inductive value : Type :=
| VNone
| VBool (b : bool)
| VInt (n : Z)
| VFloat (x : spec_float)
| VStr (s : string)
| VList (items : list value)
| VDict (entries : list (string * value)).

(** The exception classes the embedded statements can raise. *)
Inductive exn : Type :=
| TypeError
| AttributeError
| KeyError (key : value)
| IndexError
| ClientError (msg : string).

Inductive result (A : Type) : Type :=
| Ok (a : A)
| Raise (e : exn).
Arguments Ok {A} a.
Arguments Raise {A} e.

(** Sequencing: a raised exception skips the rest of the block. *)
#[global] Instance result_ret : MRet result := fun A a => Ok a.
#[global] Instance result_bind : MBind result := fun A B k m =>
  match m with
  | Ok a => k a
  | Raise e => Raise e
  end.

(** A [for] loop whose body updates an accumulator and may raise. *)
Fixpoint for_each {A S} (body : S -> A -> result S) (xs : list A) (s : S)
  : result S :=
  match xs with
  | [] => Ok s
  | x :: xs' => s' ← body s x; for_each body xs' s'
  end.

(** [bool(v)]: the truth value Python gives a document. *)
Definition truthy (v : value) : bool :=
  match v with
  | VNone => false
  | VBool b => b
  | VInt n => negb (n =? 0)
  | VFloat (S754_zero _) => false
  | VFloat _ => true
  | VStr s => negb (String.eqb s "")
  | VList items => match items with [] => false | _ => true end
  | VDict entries => match entries with [] => false | _ => true end
  end.

(** Lookup in a dict: the entry stored under [key]. *)
Fixpoint lookup (key : string) (entries : list (string * value))
  : option value :=
  match entries with
  | [] => None
  | (k, v) :: rest => if String.eqb k key then Some v else lookup key rest
  end.

(** [sub in s] for two strings. *)
Fixpoint substring_of (sub s : string) : bool :=
  String.prefix sub s ||
  match s with
  | EmptyString => false
  | String _ s' => substring_of sub s'
  end.

Definition is_str (key : string) (v : value) : bool :=
  match v with
  | VStr s => String.eqb s key
  | _ => false
  end.

(** [key in v] for a string [key]. *)
Definition contains (key : string) (v : value) : result bool :=
  match v with
  | VDict entries => Ok (bool_decide (is_Some (lookup key entries)))
  | VList items => Ok (existsb (is_str key) items)
  | VStr s => Ok (substring_of key s)
  | _ => Raise TypeError
  end.

(** [v[key]] for a string [key]. *)
Definition getitem (v : value) (key : string) : result value :=
  match v with
  | VDict entries =>
      match lookup key entries with
      | Some x => Ok x
      | None => Raise (KeyError (VStr key))
      end
  | _ => Raise TypeError
  end.

(** [v[i]] for a non-negative integer [i]. *)
Definition index (v : value) (i : nat) : result value :=
  match v with
  | VList xs =>
      match xs !! i with
      | Some x => Ok x
      | None => Raise IndexError
      end
  | VStr s =>
      match String.get i s with
      | Some c => Ok (VStr (String c EmptyString))
      | None => Raise IndexError
      end
  | VDict _ => Raise (KeyError (VInt (Z.of_nat i)))
  | _ => Raise TypeError
  end.

(** [v.get(key, default)]. *)
Definition get (v : value) (key : string) (dflt : value) : result value :=
  match v with
  | VDict entries => Ok (default dflt (lookup key entries))
  | _ => Raise AttributeError
  end.

(** [v.items()]. *)
Definition items (v : value) : result (list (string * value)) :=
  match v with
  | VDict entries => Ok entries
  | _ => Raise AttributeError
  end.

Fixpoint chars (s : string) : list value :=
  match s with
  | EmptyString => []
  | String c s' => VStr (String c EmptyString) :: chars s'
  end.

(** What [for x in v] enumerates. *)
Definition iter (v : value) : result (list value) :=
  match v with
  | VList xs => Ok xs
  | VDict entries => Ok (map (fun e => VStr (fst e)) entries)
  | VStr s => Ok (chars s)
  | _ => Raise TypeError
  end.

(** [s.split(sep)] for a one-character separator: one more part than
    there are separators. *)
Fixpoint split_on (sep : ascii) (s : string) : list string :=
  match s with
  | EmptyString => [EmptyString]
  | String c s' =>
      if Ascii.eqb c sep then EmptyString :: split_on sep s'
      else match split_on sep s' with
           | p :: ps => String c p :: ps
           | [] => [String c EmptyString]
           end
  end.

(** [v.split('.')]: only a [str] has the method. *)
Definition split (v : value) (sep : ascii) : result (list string) :=
  match v with
  | VStr s => Ok (split_on sep s)
  | _ => Raise AttributeError
  end.

(** [s.startswith(c)] for a one-character prefix. *)
Definition startswith (s : string) (c : ascii) : bool :=
  match s with
  | String c' _ => Ascii.eqb c' c
  | EmptyString => false
  end.

(** [sorted(list(s))] for a set of strings: increasing in the
    lexicographic order of strings, [String.le]. *)
Definition sorted (s : gset string) : list string :=
  merge_sort String.le (elements s).

(** [f"{n}"] for an integer. *)
Definition str_of_int (n : Z) : string :=
  NilZero.string_of_int (Z.to_int n).

End Py.

Import Py.

(* ================================================================== *)
(** * backend_apis/master_edge_details.py *)
(* ================================================================== *)

Module MasterEdgeDetails.

(** ** [extract_instance_families] *)

Record families : Type := Families {
  c_family : gset string;
  m_family : gset string;
  r_family : gset string
}.

(** The body of the loop over [instance_types]. *)
Definition classify (acc : families) (instance_type : value)
  : result families :=
  if negb (truthy instance_type) then Ok acc
  else
    parts ← split instance_type ".";
    match parts with
    | family_part :: size :: _ =>
        if startswith family_part "c" then
          Ok (Families ({[size]} ∪ c_family acc) (m_family acc) (r_family acc))
        else if startswith family_part "m" then
          Ok (Families (c_family acc) ({[size]} ∪ m_family acc) (r_family acc))
        else if startswith family_part "r" then
          Ok (Families (c_family acc) (m_family acc) ({[size]} ∪ r_family acc))
        else Ok acc
    | _ => Ok acc
    end.

Definition extract_instance_families (instance_types : value)
  : result (list string * list string * list string) :=
  xs ← iter instance_types;
  acc ← for_each classify xs (Families ∅ ∅ ∅);
  Ok (sorted (c_family acc), sorted (m_family acc), sorted (r_family acc)).

(** ** [parse_edge_discovery_data] *)

Definition family_entries (fams : list string * list string * list string)
  : list (string * value) :=
  let '(c, m, r) := fams in
  [("c_family", VList (VStr <$> c));
   ("m_family", VList (VStr <$> m));
   ("r_family", VList (VStr <$> r))].

(** One pass of the loop over [lz_data['localZones'].items()]. *)
Definition local_zone (acc : list value) (zone : string * value)
  : result (list value) :=
  let '(zone_name, zone_info) := zone in
  instance_types ← get zone_info "InstanceTypes" (VList []);
  fams ← extract_instance_families instance_types;
  parent_region ← get zone_info "RegionName" (VStr "");
  parent_az ← get zone_info "ParentAZ" (VStr "");
  Ok (acc ++ [VDict ([("edge_id", VStr zone_name);
                      ("parent_region", parent_region);
                      ("parent_az", parent_az)] ++ family_entries fams)]).

(** The block under [# Parse Local Zones data]: the list that
    [answer["public_local_zones"]] holds afterwards. *)
Definition parse_local_zones (localzones : value) : result (list value) :=
  if truthy localzones then
    has_body ← contains "body" localzones;
    if has_body : bool then
      lz_data ← getitem localzones "body";
      has_zones ← contains "localZones" lz_data;
      if has_zones : bool then
        zones ← getitem lz_data "localZones" ≫= items;
        for_each local_zone zones []
      else Ok []
    else Ok []
  else Ok [].

(** The inner loop over [server.get('InstanceType', [])]. *)
Definition server_instance_types (acc : list value) (server : value)
  : result (list value) :=
  infos ← get server "InstanceType" (VList []) ≫= iter;
  for_each (fun acc instance_type_info =>
              t ← getitem instance_type_info "InstanceType";
              Ok (acc ++ [t])) infos acc.

(** The body of the loop over [op_data['outposts'].items()]; the loop
    ends with [break], so it runs for the first item only. *)
Definition outpost (op_data : value) (item : string * value) : result value :=
  let '(outpost_id, outpost_info) := item in
  servers ← get outpost_info "Servers" (VList []) ≫= iter;
  all_instance_types ← for_each server_instance_types servers [];
  fams ← extract_instance_families (VList all_instance_types);
  parent_region ← get op_data "region" (VStr "");
  parent_az ← get outpost_info "AvailabilityZone" (VStr "");
  Ok (VDict ([("edge_id", VStr outpost_id);
              ("parent_region", parent_region);
              ("parent_az", parent_az)] ++ family_entries fams)).

(** The block under [# Parse Outposts data]: the value that
    [answer["outposts"]] holds afterwards. *)
Definition parse_outposts (outposts : value) : result value :=
  if truthy outposts then
    has_body ← contains "body" outposts;
    if has_body : bool then
      op_data ← getitem outposts "body";
      has_outposts ← contains "outposts" op_data;
      if has_outposts : bool then
        racks ← getitem op_data "outposts" ≫= items;
        match racks with
        | first :: _ => outpost op_data first
        | [] => Ok (VDict [])
        end
      else Ok (VDict [])
    else Ok (VDict [])
  else Ok (VDict []).

(** The [results] dict of [lambda_handler]. *)
Record results : Type := Results {
  outposts : value;
  localzones : value;
  errors : list string
}.

Definition answer_document (public_local_zones : list value) (outposts : value)
  : value :=
  VDict [("answer", VDict [("public_local_zones", VList public_local_zones);
                           ("outposts", outposts)])].

Definition parse_edge_discovery_data (res : results) : result value :=
  public_local_zones ← parse_local_zones (localzones res);
  outposts ← parse_outposts (outposts res);
  Ok (answer_document public_local_zones outposts).

(** ** [lambda_handler] *)

(** [json.loads(response['Payload'].read())]: the decoded document, or
    the exception it raises, with its [str]. *)
Inductive payload : Type :=
| Json (doc : value)
| Undecodable (msg : string).

(** What [lambda_client.invoke(...)] does: it returns a response with a
    status code and a payload, or raises. *)
Inductive invocation : Type :=
| Returned (StatusCode : Z) (Payload : payload)
| RaisedClientError (msg : string)
| RaisedException (msg : string).

(** The text [json.dumps(doc)] returns, kept as the document it
    serialises. *)
Inductive json_text : Type :=
| json_dumps (doc : value).

Record response : Type := Response {
  statusCode : Z;
  body : json_text
}.

Section Handler.

(** The Lambda service: invoking a function by name with an event,
    in a world the invocation may change. *)
Context {world : Type}.
Variable invoke : world -> string -> value -> invocation * world.

(** The first [try] block. *)
Definition call_outposts (event : value) (res : results) (w : world)
  : results * world :=
  let '(outcome, w') := invoke w "get_outposts_details" event in
  (match outcome with
   | Returned StatusCode (Json outposts_payload) =>
       if StatusCode =? 200 then
         Results outposts_payload (localzones res) (errors res)
       else
         Results (outposts res) (localzones res)
           (errors res ++ ["Outposts lambda failed with status: "
                           +:+ str_of_int StatusCode])
   | RaisedClientError msg =>
       Results (outposts res) (localzones res)
         (errors res ++ ["Error calling get_outposts_details: " +:+ msg])
   | Returned _ (Undecodable msg) | RaisedException msg =>
       Results (outposts res) (localzones res)
         (errors res
            ++ ["Unexpected error calling get_outposts_details: " +:+ msg])
   end, w').

(** The second [try] block. *)
Definition call_localzones (event : value) (res : results) (w : world)
  : results * world :=
  let '(outcome, w') := invoke w "get_localzones_details" event in
  (match outcome with
   | Returned StatusCode (Json localzones_payload) =>
       if StatusCode =? 200 then
         Results (outposts res) localzones_payload (errors res)
       else
         Results (outposts res) (localzones res)
           (errors res ++ ["Local zones lambda failed with status: "
                           +:+ str_of_int StatusCode])
   | RaisedClientError msg =>
       Results (outposts res) (localzones res)
         (errors res ++ ["Error calling get_localzones_details: " +:+ msg])
   | Returned _ (Undecodable msg) | RaisedException msg =>
       Results (outposts res) (localzones res)
         (errors res
            ++ ["Unexpected error calling get_localzones_details: " +:+ msg])
   end, w').

(** Lines 14-60: both [try] blocks, one after the other. *)
Definition collect (event : value) (w : world) : results * world :=
  let '(res1, w1) := call_outposts event (Results VNone VNone []) w in
  call_localzones event res1 w1.

Definition failure_document (errs : list string) : value :=
  VDict [("success", VBool false);
         ("errors", VList (VStr <$> errs));
         ("message", VStr "Edge discovery completed with errors")].

(** Lines 62-80. *)
Definition respond (res : results) : result response :=
  let success := bool_decide (length (errors res) = 0%nat) in
  if success then
    formatted_response ← parse_edge_discovery_data res;
    Ok (Response 200 (json_dumps formatted_response))
  else
    Ok (Response 500 (json_dumps (failure_document (errors res)))).

Definition lambda_handler (event : value) (w : world)
  : result response * world :=
  let '(res, w') := collect event w in
  (respond res, w').

End Handler.

End MasterEdgeDetails.

Import MasterEdgeDetails.

(* ================================================================== *)
(** * The catalog store: the DynamoDB table [discovery] *)
(* ================================================================== *)

Module Dynamo.

(** A stored record: a dict of attributes. *)
Definition item : Type := list (string * value).

(** The table, keyed by the string attribute [edge_id]. *)
Definition table : Type := list item.

Definition key_of (it : item) : option string :=
  match lookup "edge_id" it with
  | Some (VStr k) => Some k
  | _ => None
  end.

Definition has_key (k : string) (it : item) : bool :=
  bool_decide (key_of it = Some k).

Fixpoint upsert (k : string) (it : item) (tbl : table) : table :=
  match tbl with
  | [] => [it]
  | old :: rest => if has_key k old then it :: rest else old :: upsert k it rest
  end.

(** [table.put_item(Item=it)]: replaces the record stored under the
    item's key or adds one; an item without a string key is refused
    with a [ClientError] and nothing is stored. *)
Definition put_item (tbl : table) (it : item) : result unit * table :=
  match key_of it with
  | Some k => (Ok (), upsert k it tbl)
  | None => (Raise (ClientError "ValidationException"), tbl)
  end.

(** [table.query(KeyConditionExpression=Key('edge_id').eq(key))['Items']]:
    the records stored under [key], in the order the table returns
    them; a key that is not a string is refused with a [ClientError]. *)
Definition query (tbl : table) (key : value) : result (list item) * table :=
  match key with
  | VStr k => (Ok (List.filter (has_key k) tbl), tbl)
  | _ => (Raise (ClientError "ValidationException"), tbl)
  end.

End Dynamo.

(* ================================================================== *)
(** * bedrock_apis/get_parent_az.py *)
(* ================================================================== *)

Module GetParentAz.

Import Dynamo.

Definition lookup_result (edge_id parent_az : value) (found : bool) : value :=
  VDict [("edge_id", edge_id); ("parent_az", parent_az); ("found", VBool found)].

Definition get_parent_az (edge_id region : value) (tbl : table)
  : result value * table :=
  let '(response, tbl') := query tbl edge_id in
  (items ← response;
   match items with
   | [] => Ok (lookup_result edge_id VNone false)
   | item :: _ =>
       Ok (lookup_result edge_id (default VNone (lookup "parent_az" item)) true)
   end, tbl').

(** What the handler returns: the agent envelope, the dict with
    [statusCode] 400, or the dict with [statusCode] 500 whose body is
    [json.dumps({'error': str(e)})]. *)
Inductive reply : Type :=
| ActionResponse (actionGroup function : value) (text_body : json_text)
| MissingParameters
| Failed (e : exn).

(** Lines 60-69: everything before the validation. *)
Definition read_parameters (event : value) : result (value * value * value) :=
  region ← get event "region" (VStr "us-east-1");
  agent ← getitem event "agent";
  actionGroup ← getitem event "actionGroup";
  function ← getitem event "function";
  parameters ← get event "parameters" (VList []);
  edge_id_1 ← index parameters 0 ≫= (fun p => get p "value" VNone);
  edge_id_2 ← index parameters 1 ≫= (fun p => get p "value" VNone);
  Ok (region, edge_id_1, edge_id_2).

(** Lines 83-121: the [try] block and its handler. *)
Definition answer (event region edge_id_1 edge_id_2 : value) (tbl : table)
  : result reply * table :=
  let '(r1, tbl1) := get_parent_az edge_id_1 region tbl in
  match r1 with
  | Raise e => (Ok (Failed e), tbl1)
  | Ok result_1 =>
      let '(r2, tbl2) := get_parent_az edge_id_2 region tbl1 in
      match r2 with
      | Raise e => (Ok (Failed e), tbl2)
      | Ok result_2 =>
          let response :=
            VDict [("edge_id_1", result_1); ("edge_id_2", result_2)] in
          (match actionGroup ← getitem event "actionGroup";
                 function ← getitem event "function";
                 Ok (ActionResponse actionGroup function (json_dumps response))
           with
           | Ok r => Ok r
           | Raise e => Ok (Failed e)
           end, tbl2)
      end
  end.

Definition lambda_handler (event : value) (tbl : table)
  : result reply * table :=
  match read_parameters event with
  | Raise e => (Raise e, tbl)
  | Ok (region, edge_id_1, edge_id_2) =>
      if negb (truthy edge_id_1 && truthy edge_id_2) then
        (Ok MissingParameters, tbl)
      else answer event region edge_id_1 edge_id_2 tbl
  end.

End GetParentAz.

(* ================================================================== *)
(** * The catalog writers of the two collectors *)
(* ================================================================== *)

(** [write_to_dynamo] of both collectors runs against a store whose
    [put_item] may raise. *)

Module GetLocalzonesDetails.

(** The dict [get_local_zones_instance_types] stores per zone (lines
    53-62); [InstanceTypes] lists the [InstanceType] of each offering. *)
Record zone_data : Type := ZoneData {
  ZoneId : value;
  RegionName : value;
  ZoneName : value;
  ParentAZ : value;
  GroupName : value;
  NetworkBorderGroup : value;
  OptInStatus : value;
  InstanceTypes : list string
}.

(** Lines 84-95: the item written for one zone. *)
Definition item_of (zd : zone_data) : Dynamo.item :=
  let available_families :=
    (fun instance_type => VDict [(instance_type, VStr instance_type)])
      <$> InstanceTypes zd in
  [("edge_id", ZoneId zd);
   ("edge_type", VStr "Public_LocalZone");
   ("parent_az", ParentAZ zd);
   ("available_families", VList available_families)].

Section Writer.
Context {store : Type}.
Variable put_item : store -> Dynamo.item -> result unit * store.

Fixpoint write_loop (zones : list (string * zone_data))
    (records_written : nat) (s : store) : result nat * store :=
  match zones with
  | [] => (Ok records_written, s)
  | (zone_name, zd) :: rest =>
      match put_item s (item_of zd) with
      | (Ok _, s') => write_loop rest (S records_written) s'
      | (Raise e, s') => (Raise e, s')
      end
  end.

Definition write_to_dynamo (local_zones_data : list (string * zone_data))
    (s : store) : result nat * store :=
  write_loop local_zones_data 0%nat s.
End Writer.

Definition encode (zd : zone_data) : value :=
  VDict [("ZoneId", ZoneId zd);
         ("RegionName", RegionName zd);
         ("ZoneName", ZoneName zd);
         ("ParentAZ", ParentAZ zd);
         ("GroupName", GroupName zd);
         ("NetworkBorderGroup", NetworkBorderGroup zd);
         ("OptInStatus", OptInStatus zd);
         ("InstanceTypes", VList (VStr <$> InstanceTypes zd))].

(** Lines 125-132: what [lambda_handler] returns when nothing raised. *)
Definition success_response (region : value)
    (local_zones_info : list (string * zone_data)) (records_written : nat)
  : value :=
  VDict [("statusCode", VInt 200);
         ("body", VDict [("region", region);
                         ("localZones", VDict (prod_map id encode <$> local_zones_info));
                         ("dynamo_result",
                          VDict [("records_written",
                                  VInt (Z.of_nat records_written))])])].

End GetLocalzonesDetails.

Module GetOutpostsDetails.

(** Lines 46-52: the dict built for one asset of [list_assets]. *)
Definition asset_info (asset : list (string * value)) : result value :=
  let compute := default (VDict []) (lookup "ComputeAttributes" asset) in
  status ← get compute "State" VNone;
  host_family ← get compute "InstanceFamilies" VNone;
  instance_type ← get compute "InstanceTypeCapacities" VNone;
  Ok (VDict [("AssetId", default VNone (lookup "AssetId" asset));
             ("AssetType", default VNone (lookup "AssetType" asset));
             ("Status", status);
             ("Host_Family", host_family);
             ("InstanceType", instance_type)]).

(** Lines 89-94: the item written for one outpost. *)
Definition item_of (outpost_id : string) (outpost_data : list (string * value))
  : Dynamo.item :=
  [("edge_id", VStr outpost_id);
   ("edge_type", default VNone (lookup "SupportedHardwareType" outpost_data));
   ("parent_az", default VNone (lookup "AvailabilityZoneId" outpost_data));
   ("available_families", default VNone (lookup "Servers" outpost_data))].

Section Writer.
Context {store : Type}.
Variable put_item : store -> Dynamo.item -> result unit * store.

Fixpoint write_loop (outposts : list (string * list (string * value)))
    (records_written : nat) (s : store) : result nat * store :=
  match outposts with
  | [] => (Ok records_written, s)
  | (outpost_id, outpost_data) :: rest =>
      match put_item s (item_of outpost_id outpost_data) with
      | (Ok _, s') => write_loop rest (S records_written) s'
      | (Raise e, s') => (Raise e, s')
      end
  end.

Definition write_to_dynamo
    (outposts_data : list (string * list (string * value))) (s : store)
  : result nat * store :=
  write_loop outposts_data 0%nat s.
End Writer.

(** Lines 125-132: what [lambda_handler] returns when nothing raised. *)
Definition success_response (region : value)
    (outposts_info : list (string * list (string * value)))
    (records_written : nat) : value :=
  VDict [("statusCode", VInt 200);
         ("body", VDict [("region", region);
                         ("outposts", VDict (prod_map id VDict <$> outposts_info));
                         ("dynamo_result",
                          VDict [("records_written",
                                  VInt (Z.of_nat records_written))])])].

End GetOutpostsDetails.

(* ================================================================== *)
(** * The Family Classifier: what an identifier contributes *)
(* ================================================================== *)

Module Classifier.

(** A capacity-type identifier as the collectors hand it over: a
    string, or [None]. *)
Definition identifier (id : option string) : value :=
  match id with
  | Some s => VStr s
  | None => VNone
  end.

Fixpoint dot_free (s : string) : bool :=
  match s with
  | EmptyString => true
  | String c s' => negb (Ascii.eqb c ".") && dot_free s'
  end.

(** [id] reads [family ++ generation ++ "." ++ size], followed by
    nothing or by further dotted parts: [size] is the token after the
    first dot, and [family] is the first character of [id]. *)
Definition designates (id : string) (family : ascii) (size : string) : Prop :=
  exists generation rest,
    id = String family generation +:+ "." +:+ size +:+ rest
    /\ dot_free (String family generation) = true
    /\ dot_free size = true
    /\ (rest = "" \/ exists r, rest = String "." r).

Inductive bucket : Type := C | M | R.

Definition letter (b : bucket) : ascii :=
  match b with
  | C => "c"
  | M => "m"
  | R => "r"
  end.

Definition family (b : bucket) : families -> gset string :=
  match b with
  | C => c_family
  | M => m_family
  | R => r_family
  end.

(** What one identifier contributes: the decision of the loop body,
    read off the parts of the identifier. *)
Definition bucket_of (id : option string) : option (bucket * string) :=
  match id with
  | Some s =>
      match split_on "." s with
      | family_part :: size :: _ =>
          if startswith family_part "c" then Some (C, size)
          else if startswith family_part "m" then Some (M, size)
          else if startswith family_part "r" then Some (R, size)
          else None
      | _ => None
      end
  | None => None
  end.

Definition place (acc : families) (contribution : option (bucket * string))
  : families :=
  match contribution with
  | Some (C, size) =>
      Families ({[size]} ∪ c_family acc) (m_family acc) (r_family acc)
  | Some (M, size) =>
      Families (c_family acc) ({[size]} ∪ m_family acc) (r_family acc)
  | Some (R, size) =>
      Families (c_family acc) (m_family acc) ({[size]} ∪ r_family acc)
  | None => acc
  end.

(** ** [split('.')] *)

(** ** The loop body on one identifier *)

(** The three sequences [extract_instance_families] returns for a list
    of identifiers. *)
Definition sizes (b : bucket) (ids : list (option string)) : list string :=
  sorted (family b
    (foldl (fun acc id => place acc (bucket_of id)) (Families ∅ ∅ ∅) ids)).

(** ** Identifiers that contribute to no bucket *)

(** [None], a string without a dot (the empty string too), or a string
    whose first character is none of [c], [m], [r]. *)
Definition unclassified (id : option string) : Prop :=
  match id with
  | None => True
  | Some s =>
      dot_free s = true
      \/ (startswith s "c" || startswith s "m" || startswith s "r") = false
  end.

(** ** The output depends on the set of identifiers only *)

End Classifier.

Import Classifier.

(* ================================================================== *)
(** * The Aggregator: the two invocations and the decision *)
(* ================================================================== *)

Module Aggregator.

(** An invocation succeeded: it returned status 200 and a payload
    that decodes. *)
Definition succeeded (o : invocation) : bool :=
  match o with
  | Returned StatusCode (Json _) => StatusCode =? 200
  | _ => false
  end.

(** The document a successful invocation hands over, [None] otherwise
    (the value the slot of [results] keeps). *)
Definition document (o : invocation) : value :=
  match o with
  | Returned StatusCode (Json doc) => if StatusCode =? 200 then doc else VNone
  | _ => VNone
  end.

(** An error entry names the collector it is about by the text it
    starts with. *)
Definition about_outposts (e : string) : bool :=
  String.prefix "Outposts lambda failed with status: " e
  || String.prefix "Error calling get_outposts_details: " e
  || String.prefix "Unexpected error calling get_outposts_details: " e.

Definition about_localzones (e : string) : bool :=
  String.prefix "Local zones lambda failed with status: " e
  || String.prefix "Error calling get_localzones_details: " e
  || String.prefix "Unexpected error calling get_localzones_details: " e.

Section Calls.
Context {world : Type}.
Variable invoke : world -> string -> value -> invocation * world.
Variables (event : value) (w : world).

(** The two invocations as they happen: [get_outposts_details] in
    the initial world, [get_localzones_details] in the world the
    first one leaves. *)
Definition first_call : invocation * world :=
  invoke w "get_outposts_details" event.
Definition second_call : invocation * world :=
  invoke (snd first_call) "get_localzones_details" event.

End Calls.

End Aggregator.

Import Aggregator.

(* ================================================================== *)
(** * The answer document: zones and racks of the reports *)
(* ================================================================== *)

Module Answer.

(** ** Zones *)

(** A zone of the zone collector's report: its name, the fields
    stored under it, and the capacity types it offers. *)
Definition zone : Type :=
  string * list (string * value) * list (option string).



(** The entry of [public_local_zones] for the zone. *)
Definition zone_entry (z : zone) : value :=
  let '(zone_name, fields, ids) := z in
  VDict [("edge_id", VStr zone_name);
         ("parent_region", default (VStr "") (lookup "RegionName" fields));
         ("parent_az", default (VStr "") (lookup "ParentAZ" fields));
         ("c_family", VList (VStr <$> sizes C ids));
         ("m_family", VList (VStr <$> sizes M ids));
         ("r_family", VList (VStr <$> sizes R ids))].

(** ** Extension racks *)

(** An entry of a server's [InstanceType] list names a capacity
    type. *)
Definition names_type (instance_type_info : value) (id : option string)
  : Prop :=
  exists fields,
    instance_type_info = VDict fields
    /\ lookup "InstanceType" fields = Some (identifier id).

(** A server of a rack carries these capacity types, in this order (no
    [InstanceType] entry counts as the empty list). *)
Definition hosts (server : value) (ids : list (option string)) : Prop :=
  exists fields infos,
    server = VDict fields
    /\ default (VList []) (lookup "InstanceType" fields) = VList infos
    /\ Forall2 names_type infos ids.


(** ** The pool as the specification words it *)



End Answer.

Import Answer.

(* ================================================================== *)
(** * The catalog writers: batches *)
(* ================================================================== *)

Module Batch.

Section Store.
Context {store : Type}.
Variable put_item : store -> Dynamo.item -> result unit * store.

(** The store after the items have been put one by one, in order,
    when none of these puts raises. *)
Fixpoint put_all (items : list Dynamo.item) (s : store) : option store :=
  match items with
  | [] => Some s
  | it :: rest =>
      match put_item s it with
      | (Ok _, s') => put_all rest s'
      | (Raise _, _) => None
      end
  end.

Definition zone_items (zones : list (string * GetLocalzonesDetails.zone_data))
  : list Dynamo.item :=
  (fun z => GetLocalzonesDetails.item_of (snd z)) <$> zones.

Definition outpost_items (outposts : list (string * list (string * value)))
  : list Dynamo.item :=
  (fun o => GetOutpostsDetails.item_of (fst o) (snd o)) <$> outposts.

End Store.

End Batch.

(* ================================================================== *)
(** * Concrete runs *)
(* ================================================================== *)

Module Scenarios.

(** A Lambda service that answers each function name with a fixed
    outcome and keeps the list of the names invoked, oldest first. *)
Definition logging (outcome : string -> invocation)
  : list string -> string -> value -> invocation * list string :=
  fun log FunctionName _ => (outcome FunctionName, log ++ [FunctionName]).

Definition event : value := VDict [("region", VStr "us-west-2")].

(** Both invocations raise a [ClientError]. *)
Definition both_fail (FunctionName : string) : invocation :=
  RaisedClientError "An error occurred (TooManyRequestsException)".

(** One near-edge zone, as [get_localzones_details] reports it. *)
Definition lax : GetLocalzonesDetails.zone_data :=
  GetLocalzonesDetails.ZoneData
    (VStr "usw2-lax1-az1") (VStr "us-west-2") (VStr "us-west-2-lax-1a")
    (VStr "usw2-az1") (VStr "us-west-2-lax-1") (VStr "us-west-2-lax-1")
    (VStr "opted-in") ["r5.xlarge"].

Definition zones_payload : value :=
  GetLocalzonesDetails.success_response (VStr "us-west-2")
    [("us-west-2-lax-1a", lax)] 1.

Definition no_outposts_payload : value :=
  GetOutpostsDetails.success_response (VStr "us-west-2") [] 0.


(** An asset of [list_assets] that reports no
    [InstanceTypeCapacities]. *)
Definition bare_asset : list (string * value) :=
  [("AssetId", VStr "1234567890");
   ("AssetType", VStr "COMPUTE");
   ("ComputeAttributes", VDict [("State", VStr "ACTIVE")])].

Definition bare_server : value :=
  VDict [("AssetId", VStr "1234567890");
         ("AssetType", VStr "COMPUTE");
         ("Status", VStr "ACTIVE");
         ("Host_Family", VNone);
         ("InstanceType", VNone)].

(** What [get_outposts_details] returns for one outpost with that
    asset. *)
Definition bare_outpost_payload : value :=
  GetOutpostsDetails.success_response (VStr "us-west-2")
    [("op-0123456789abcdef0",
      [("OutpostArn", VStr "arn:aws:outposts:us-west-2:111122223333:outpost/op-0123456789abcdef0");
       ("Name", VStr "edge-rack");
       ("AvailabilityZone", VStr "us-west-2a");
       ("AvailabilityZoneId", VStr "usw2-az1");
       ("SupportedHardwareType", VStr "RACK");
       ("Servers", VList [bare_server])])] 1.

Definition both_succeed_bare (FunctionName : string) : invocation :=
  if String.eqb FunctionName "get_outposts_details"
  then Returned 200 (Json bare_outpost_payload)
  else Returned 200 (Json zones_payload).




(** Both collectors succeed and there is no outpost. *)
Definition both_succeed (FunctionName : string) : invocation :=
  if String.eqb FunctionName "get_outposts_details"
  then Returned 200 (Json no_outposts_payload)
  else Returned 200 (Json zones_payload).

(** A zone whose [ZoneId] is [None]: its item has no key. *)
Definition nameless : GetLocalzonesDetails.zone_data :=
  GetLocalzonesDetails.ZoneData
    VNone (VStr "us-west-2") (VStr "us-west-2-phx-2a")
    (VStr "usw2-az2") (VStr "us-west-2-phx-2") (VStr "us-west-2-phx-2")
    (VStr "opted-in") ["c5.large"].


(** A table with one record. *)
Definition catalog : Dynamo.table :=
  [GetLocalzonesDetails.item_of lax].


(** An agent event with three parameters, the second with an empty
    value. *)
Definition empty_value_event : list (string * value) :=
  [("agent", VStr "edge-agent"); ("actionGroup", VStr "edge");
   ("function", VStr "get_parent_az");
   ("parameters",
    VList [VDict [("name", VStr "edge_id_1"); ("value", VStr "usw2-lax1-az1")];
           VDict [("name", VStr "edge_id_2"); ("value", VStr "")];
           VDict [("name", VStr "edge_id_3"); ("value", VStr "x")]])].

(** An agent event with one parameter only. *)
Definition short_event : list (string * value) :=
  [("agent", VDict [("name", VStr "edge-agent")]);
   ("actionGroup", VStr "edge");
   ("function", VStr "get_parent_az");
   ("parameters",
    VList [VDict [("name", VStr "edge_id_1"); ("type", VStr "string");
                  ("value", VStr "usw2-lax1-az1")]])].

End Scenarios.

Import Scenarios.

(* ================================================================== *)
(** * The collectors: discovery and handlers *)
(* ================================================================== *)

(** [d[k] = v] on a dict: the entry under [k] is replaced where it
    stands, a new key goes last. *)
Fixpoint dict_set {V : Type} (k : string) (v : V) (d : list (string * V))
  : list (string * V) :=
  match d with
  | [] => [(k, v)]
  | (k', v') :: rest =>
      if String.eqb k' k then (k, v) :: rest else (k', v') :: dict_set k v rest
  end.

(** Lines 133-139 of both collectors: the dict returned from the
    [except] branch, with [msg] for [str(e)]. *)
Definition failure_response (msg : string) : value :=
  VDict [("statusCode", VInt 500); ("body", VDict [("error", VStr msg)])].

Module ZoneCollector.

Import GetLocalzonesDetails.

(** A zone as [describe_availability_zones] lists it: the name is a
    string, the other fields are what [zone.get(...)] gives, [None] when
    absent. *)
Record availability_zone : Type := AvailabilityZone {
  az_ZoneName : string;
  az_ZoneId : value;
  az_ParentZoneId : value;
  az_RegionName : value;
  az_GroupName : value;
  az_NetworkBorderGroup : value;
  az_OptInStatus : value
}.

Section Discovery.

(** The two calls of [ec2_client]: the local zones of the region, and
    the [InstanceType] of each offering at a location; each returns or
    raises. *)
Variable describe_availability_zones : result (list availability_zone).
Variable describe_instance_type_offerings : string -> result (list string).

(** Lines 53-62: the dict stored for a zone. *)
Definition zone_record (zone : availability_zone) (instance_types : list string)
  : zone_data :=
  ZoneData (az_ZoneId zone) (az_RegionName zone) (VStr (az_ZoneName zone))
    (az_ParentZoneId zone) (az_GroupName zone) (az_NetworkBorderGroup zone)
    (az_OptInStatus zone) instance_types.

(** Lines 30-62: the loop over the zones. *)
Fixpoint zones_loop (zones : list availability_zone)
    (acc : list (string * zone_data)) : result (list (string * zone_data)) :=
  match zones with
  | [] => Ok acc
  | zone :: rest =>
      instance_types ← describe_instance_type_offerings (az_ZoneName zone);
      zones_loop rest
        (dict_set (az_ZoneName zone) (zone_record zone instance_types) acc)
  end.

Definition get_local_zones_instance_types
  : result (list (string * zone_data)) :=
  zones ← describe_availability_zones;
  zones_loop zones [].

Context {store : Type}.
Variable put_item : store -> Dynamo.item -> result unit * store.

(** [str(e)], as the interpreter prints an exception. *)
Variable str : exn -> string.

(** Lines 113-139. *)
Definition lambda_handler (event : value) (s : store) : result value * store :=
  match get event "region" (VStr "us-east-1") with
  | Raise e => (Raise e, s)
  | Ok region =>
      match get_local_zones_instance_types with
      | Raise e => (Ok (failure_response (str e)), s)
      | Ok local_zones_info =>
          match write_to_dynamo put_item local_zones_info s with
          | (Ok records_written, s') =>
              (Ok (success_response region local_zones_info records_written), s')
          | (Raise e, s') => (Ok (failure_response (str e)), s')
          end
      end
  end.

End Discovery.

End ZoneCollector.

Module ExtensionCollector.

Import GetOutpostsDetails.

(** An outpost as [list_outposts] lists it: the identifier is a string,
    the other fields are what [outpost.get(...)] gives. *)
Record outpost : Type := Outpost {
  op_OutpostId : string;
  op_OutpostArn : value;
  op_Name : value;
  op_AvailabilityZone : value;
  op_AvailabilityZoneId : value;
  op_SupportedHardwareType : value
}.

Section Discovery.

(** The calls of [outposts_client]: the active outposts, the instance
    types of an outpost (the answer is not used), and the active assets
    of an outpost. *)
Variable list_outposts : result (list outpost).
Variable get_outpost_instance_types : string -> result unit.
Variable list_assets : string -> result (list (list (string * value))).

(** Lines 44-54: the loop over the assets. *)
Definition servers_of (assets : list (list (string * value)))
  : result (list value) :=
  for_each (fun servers asset =>
              info ← asset_info asset; Ok (servers ++ [info])) assets [].

(** Lines 58-65: the dict stored for an outpost. *)
Definition outpost_record (o : outpost) (servers : list value)
  : list (string * value) :=
  [("OutpostArn", op_OutpostArn o);
   ("Name", op_Name o);
   ("AvailabilityZone", op_AvailabilityZone o);
   ("AvailabilityZoneId", op_AvailabilityZoneId o);
   ("SupportedHardwareType", op_SupportedHardwareType o);
   ("Servers", VList servers)].

(** Lines 28-65: the loop over the outposts. *)
Fixpoint outposts_loop (outposts : list outpost)
    (acc : list (string * list (string * value)))
  : result (list (string * list (string * value))) :=
  match outposts with
  | [] => Ok acc
  | o :: rest =>
      _ ← get_outpost_instance_types (op_OutpostId o);
      assets ← list_assets (op_OutpostId o);
      servers ← servers_of assets;
      outposts_loop rest
        (dict_set (op_OutpostId o) (outpost_record o servers) acc)
  end.

Definition get_outposts_info : result (list (string * list (string * value))) :=
  outposts ← list_outposts;
  outposts_loop outposts [].

Context {store : Type}.
Variable put_item : store -> Dynamo.item -> result unit * store.

(** [str(e)], as the interpreter prints an exception. *)
Variable str : exn -> string.

(** Lines 113-139. *)
Definition lambda_handler (event : value) (s : store) : result value * store :=
  match get event "region" (VStr "us-east-1") with
  | Raise e => (Raise e, s)
  | Ok region =>
      match get_outposts_info with
      | Raise e => (Ok (failure_response (str e)), s)
      | Ok outposts_info =>
          match write_to_dynamo put_item outposts_info s with
          | (Ok records_written, s') =>
              (Ok (success_response region outposts_info records_written), s')
          | (Raise e, s') => (Ok (failure_response (str e)), s')
          end
      end
  end.

End Discovery.

End ExtensionCollector.

(** The zone of the zone collector's report, as the Aggregator reads
    it. *)
Definition zone_of (z : string * GetLocalzonesDetails.zone_data) : zone :=
  (fst z,
   [("ZoneId", GetLocalzonesDetails.ZoneId (snd z));
    ("RegionName", GetLocalzonesDetails.RegionName (snd z));
    ("ZoneName", GetLocalzonesDetails.ZoneName (snd z));
    ("ParentAZ", GetLocalzonesDetails.ParentAZ (snd z));
    ("GroupName", GetLocalzonesDetails.GroupName (snd z));
    ("NetworkBorderGroup", GetLocalzonesDetails.NetworkBorderGroup (snd z));
    ("OptInStatus", GetLocalzonesDetails.OptInStatus (snd z));
    ("InstanceTypes",
     VList (VStr <$> GetLocalzonesDetails.InstanceTypes (snd z)))],
   Some <$> GetLocalzonesDetails.InstanceTypes (snd z)).

(** The table holds one record per key: every item has a string
    key, and no two items have the same. *)
Definition well_keyed (tbl : Dynamo.table) : Prop :=
  Forall (fun it => is_Some (Dynamo.key_of it)) tbl
  /\ NoDup (Dynamo.key_of <$> tbl).

Module CollectorScenarios.

(** The zones [lax] and [nameless] as [describe_availability_zones]
    lists them. *)
Definition aws_lax : ZoneCollector.availability_zone :=
  ZoneCollector.AvailabilityZone "us-west-2-lax-1a"
    (VStr "usw2-lax1-az1") (VStr "usw2-az1") (VStr "us-west-2")
    (VStr "us-west-2-lax-1") (VStr "us-west-2-lax-1") (VStr "opted-in").

Definition aws_nameless : ZoneCollector.availability_zone :=
  ZoneCollector.AvailabilityZone "us-west-2-phx-2a"
    VNone (VStr "usw2-az2") (VStr "us-west-2")
    (VStr "us-west-2-phx-2") (VStr "us-west-2-phx-2") (VStr "opted-in").

(** An outpost as [list_outposts] lists it. *)
Definition aws_outpost : ExtensionCollector.outpost :=
  ExtensionCollector.Outpost "op-0123456789abcdef0"
    (VStr "arn:aws:outposts:us-west-2:111122223333:outpost/op-0123456789abcdef0")
    (VStr "edge-rack") (VStr "us-west-2a") (VStr "usw2-az1") (VStr "RACK").

End CollectorScenarios.

(* ================================================================== *)
(** * bedrock_apis/read_my_discovery.py *)
(* ================================================================== *)

Module ReadMyDiscovery.

(** The response of [table.scan]: the items of one page and, unless the
    page is the last, the key to resume from. *)
Record page (cursor : Type) : Type := Page {
  Items : list Dynamo.item;
  LastEvaluatedKey : option cursor
}.
Arguments Page {cursor} Items LastEvaluatedKey.
Arguments Items {cursor} p.
Arguments LastEvaluatedKey {cursor} p.

(** What the handler returns: the agent envelope, or the dict with
    [statusCode] 500 for an exception raised inside the [try]. *)
Inductive reply : Type :=
| ActionResponse (actionGroup function : value) (text_body : json_text)
| Failed (e : exn).

Section Scan.

Context {cursor : Type}.

(** [table.scan()] and [table.scan(ExclusiveStartKey=k)]. *)
Variable scan : option cursor -> result (page cursor).

(** Lines 27-29: the [while] loop, which goes on for as long as the
    responses carry a [LastEvaluatedKey]; [fuel] bounds the number of
    further scans, and [None] is a loop that has not ended within it. *)
Fixpoint scan_loop (fuel : nat) (response : page cursor)
    (items : list Dynamo.item) : option (result (list Dynamo.item)) :=
  match LastEvaluatedKey response with
  | None => Some (Ok items)
  | Some k =>
      match fuel with
      | O => None
      | S fuel' =>
          match scan (Some k) with
          | Ok response' => scan_loop fuel' response' (items ++ Items response')
          | Raise e => Some (Raise e)
          end
      end
  end.

Definition discovery_document (items : list Dynamo.item) : value :=
  VDict [("total_items", VInt (Z.of_nat (length items)));
         ("items", VList (VDict <$> items))].

Definition read_discovery_table (fuel : nat) (region : value)
  : option (result value) :=
  match scan None with
  | Raise e => Some (Raise e)
  | Ok response =>
      match scan_loop fuel response (Items response) with
      | Some (Ok items) => Some (Ok (discovery_document items))
      | Some (Raise e) => Some (Raise e)
      | None => None
      end
  end.

(** Lines 49-88. *)
Definition lambda_handler (fuel : nat) (event : value)
  : option (result reply) :=
  match agent ← getitem event "agent";
        actionGroup ← getitem event "actionGroup";
        function ← getitem event "function";
        parameters ← get event "parameters" (VList []);
        get event "region" (VStr "us-east-1")
  with
  | Raise e => Some (Raise e)
  | Ok region =>
      match read_discovery_table fuel region with
      | None => None
      | Some (Raise e) => Some (Raise e)
      | Some (Ok response) =>
          Some (Ok match actionGroup ← getitem event "actionGroup";
                         function ← getitem event "function";
                         Ok (ActionResponse actionGroup function
                               (json_dumps response))
                   with
                   | Ok r => r
                   | Raise e => Failed e
                   end)
      end
  end.

End Scan.

(** A table that [scan] reads in pages: the cursor is the number of
    items read so far, and the page that starts at a cursor holds
    [limit] of that cursor many items. *)
Definition scan_table (tbl : Dynamo.table) (limit : nat -> nat)
    (start : option nat) : result (page nat) :=
  let read := default 0%nat start in
  let remaining := drop read tbl in
  Ok (Page (take (limit read) remaining)
           (if decide (limit read < length remaining)%nat
            then Some (read + limit read)%nat else None)).

End ReadMyDiscovery.

(* ================================================================== *)
(** * Facts about the Python operations *)
(* ================================================================== *)

Section Sorted.

Implicit Types (s : gset string) (x : string).

Lemma app_empty_r x : x +:+ "" = x.
Proof.
  induction x as [|c x IH]; [done|].
  change (String c x +:+ "") with (String c (x +:+ "")). by rewrite IH.
Qed.

Lemma elem_of_sorted s x : x ∈ sorted s <-> x ∈ s.
Proof.
  unfold sorted. rewrite (merge_sort_Permutation String.le (elements s)).
  apply elem_of_elements.
Qed.

Lemma sorted_StronglySorted s : StronglySorted String.le (sorted s).
Proof. apply StronglySorted_merge_sort; apply _. Qed.

Lemma sorted_NoDup s : NoDup (sorted s).
Proof.
  unfold sorted. rewrite (merge_sort_Permutation String.le (elements s)).
  apply NoDup_elements.
Qed.

(** Sorted and duplicate-free together: strictly increasing. *)
Lemma sorted_strict s : StronglySorted (strict String.le) (sorted s).
Proof.
  generalize (sorted_StronglySorted s) (sorted_NoDup s).
  induction 1 as [|x l Hl IH Hx]; intros Hnd; constructor.
  - apply IH. by apply NoDup_cons in Hnd as [_ ?].
  - apply NoDup_cons in Hnd as [Hnotin _].
    rewrite Forall_forall in Hx |- *. intros y Hy.
    apply strict_spec_alt. split; [by apply Hx|]. by intros ->.
Qed.

End Sorted.

(* ================================================================== *)
(** * The Family Classifier: facts *)
(* ================================================================== *)

Module ClassifierFacts.

Lemma split_on_nonempty sep s : split_on sep s <> [].
Proof. destruct s as [|c s]; simpl; [done|]. by repeat case_match. Qed.

Lemma split_on_dot_free s : dot_free s = true -> split_on "." s = [s].
Proof.
  induction s as [|c s IH]; simpl; [done|].
  intros [Hc Hs]%andb_prop. apply negb_true_iff in Hc. rewrite Hc.
  by rewrite (IH Hs).
Qed.

Lemma split_on_app a b :
  dot_free a = true ->
  split_on "." (a +:+ String "." b) = a :: split_on "." b.
Proof.
  induction a as [|c a IH]; simpl; [done|].
  intros [Hc Ha]%andb_prop. apply negb_true_iff in Hc. rewrite Hc.
  by rewrite (IH Ha).
Qed.

(** The first part is free of dots, and the rest of the parts are the
    parts of what follows the first dot. *)
Lemma split_on_inv s p ps :
  split_on "." s = p :: ps ->
  dot_free p = true
  /\ ((ps = [] /\ s = p)
      \/ exists b, s = p +:+ String "." b /\ split_on "." b = ps).
Proof.
  revert p ps. induction s as [|c s IH]; simpl; intros p ps.
  - intros [= <- <-]. auto.
  - destruct (Ascii.eqb c ".") eqn:Hc.
    + apply Ascii.eqb_eq in Hc as ->. intros [= <- <-].
      split; [done|]. right. by exists s.
    + destruct (split_on "." s) as [|q qs] eqn:Hs;
        [by apply split_on_nonempty in Hs|].
      intros [= <- <-]. destruct (IH q qs eq_refl) as [Hq Hcases].
      split; [simpl; by rewrite Hc, Hq|].
      destruct Hcases as [[-> ->]|(b & -> & Hb)]; [by left|].
      right. by exists b.
Qed.

Lemma startswith_letter s c :
  startswith s c = true <-> exists s', s = String c s'.
Proof.
  destruct s as [|c' s']; simpl.
  - split; [done|]. by intros [? ?].
  - rewrite Ascii.eqb_eq. split; [intros ->; eauto|]. by intros [? [= -> _]].
Qed.

Lemma bucket_of_designates s b size :
  bucket_of (Some s) = Some (b, size) <-> designates s (letter b) size.
Proof.
  unfold bucket_of, designates. split.
  - destruct (split_on "." s) as [|family_part [|size' tl]] eqn:Hs; try done.
    intros Hb.
    apply split_on_inv in Hs as [Hfam [[? _]|(rest1 & -> & Hrest)]]; [done|].
    apply split_on_inv in Hrest as [Hsize Hrest].
    assert (exists generation, family_part = String (letter b) generation
                               /\ size' = size) as (g & -> & ->).
    { repeat case_match; simplify_eq;
        match goal with
        | H : startswith _ _ = true |- _ =>
            apply startswith_letter in H as [g ->]
        end; by exists g. }
    destruct Hrest as [[_ ->]|(rest2 & -> & _)].
    + exists g, "". repeat split; auto.
      by rewrite app_empty_r.
    + exists g, (String "." rest2). repeat split; eauto.
  - intros (g & rest & -> & Hfam & Hsize & Hrest).
    change (String (letter b) g +:+ "." +:+ size +:+ rest)
      with (String (letter b) g +:+ String "." (size +:+ rest)).
    rewrite (split_on_app _ _ Hfam).
    assert (exists tl, split_on "." (size +:+ rest) = size :: tl) as [tl ->].
    { destruct Hrest as [->|[r ->]].
      - exists []. rewrite app_empty_r. by apply split_on_dot_free.
      - eexists. by apply split_on_app. }
    destruct b; simpl; done.
Qed.

Lemma classify_identifier acc id :
  classify acc (identifier id) = Ok (place acc (bucket_of id)).
Proof.
  destruct id as [s|]; [|done]. unfold classify. simpl.
  destruct s as [|c s]; [done|]. simpl negb. cbv iota.
  change (split (VStr (String c s)) ".") with (Ok (split_on "." (String c s))).
  unfold bucket_of. simpl mbind. unfold result_bind.
  destruct (split_on "." (String c s)) as [|family_part [|size tl]]; try done.
  by repeat case_match.
Qed.

Lemma for_each_identifiers ids acc :
  for_each classify (identifier <$> ids) acc
  = Ok (foldl (fun acc id => place acc (bucket_of id)) acc ids).
Proof.
  revert acc. induction ids as [|id ids IH]; intros acc; simpl; [done|].
  rewrite classify_identifier. simpl. apply IH.
Qed.

Lemma family_place b acc contribution size :
  size ∈ family b (place acc contribution)
  <-> size ∈ family b acc \/ contribution = Some (b, size).
Proof.
  destruct contribution as [[[] size']|], b; simpl;
    rewrite ?elem_of_union, ?elem_of_singleton; intuition congruence.
Qed.

Lemma family_foldl b ids : forall acc size,
  size ∈ family b (foldl (fun acc id => place acc (bucket_of id)) acc ids)
  <-> size ∈ family b acc
      \/ exists id, id ∈ ids /\ bucket_of id = Some (b, size).
Proof.
  induction ids as [|id ids IH]; intros acc size; simpl.
  - split; [auto|]. intros [?|(? & ?%elem_of_nil & _)]; done.
  - rewrite IH, family_place. split.
    + intros [[?|?]|(id' & ? & ?)]; auto.
      * right. exists id. split; [left|done].
      * right. exists id'. split; [by right|done].
    + intros [?|(id' & [->|?]%elem_of_cons & ?)]; eauto.
Qed.

Lemma extract_identifiers ids :
  extract_instance_families (VList (identifier <$> ids))
  = Ok (sizes C ids, sizes M ids, sizes R ids).
Proof.
  unfold extract_instance_families. simpl iter. simpl.
  by rewrite for_each_identifiers.
Qed.

Lemma elem_of_sizes b ids size :
  size ∈ sizes b ids
  <-> exists id, Some id ∈ ids /\ designates id (letter b) size.
Proof.
  unfold sizes. rewrite elem_of_sorted, family_foldl. split.
  - intros [Hempty|(id & Hin & Hb)];
      [by destruct b; apply not_elem_of_empty in Hempty|].
    destruct id as [s|]; [|done]. exists s. by rewrite <- bucket_of_designates.
  - intros (s & Hin & Hd). right. exists (Some s).
    by rewrite bucket_of_designates.
Qed.

Lemma split_on_head s (x : ascii) :
  x <> "."%char ->
  exists p ps, split_on "." s = p :: ps /\ startswith p x = startswith s x.
Proof.
  intros Hx. destruct s as [|c s]; simpl; [by eexists _, _|].
  destruct (Ascii.eqb c ".") eqn:Hc.
  - apply Ascii.eqb_eq in Hc as ->. eexists _, _. split; [done|].
    unfold startswith. symmetry. apply Ascii.eqb_neq. congruence.
  - destruct (split_on "." s) as [|q qs] eqn:Hs;
      [by apply split_on_nonempty in Hs|].
    by eexists _, _.
Qed.

Lemma bucket_of_unclassified id : unclassified id -> bucket_of id = None.
Proof.
  destruct id as [s|]; [|done]. simpl. intros [Hs|Hs].
  - by rewrite split_on_dot_free.
  - apply orb_false_elim in Hs as [[Hc Hm]%orb_false_elim Hr].
    destruct (split_on_head s "c") as (p & ps & Hp & Hpc); [done|].
    destruct (split_on_head s "m") as (? & ? & Hp' & Hpm); [done|].
    destruct (split_on_head s "r") as (? & ? & Hp'' & Hpr); [done|].
    rewrite Hp in Hp', Hp''. injection Hp' as <- <-. injection Hp'' as <- <-.
    rewrite Hp, Hpc, Hpm, Hpr, Hc, Hm, Hr. by destruct ps.
Qed.

Lemma sizes_unclassified b ids1 id ids2 :
  unclassified id -> sizes b (ids1 ++ id :: ids2) = sizes b (ids1 ++ ids2).
Proof.
  intros Hid. unfold sizes. rewrite !foldl_app. simpl.
  by rewrite (bucket_of_unclassified id Hid).
Qed.

Lemma sizes_same_elements b ids1 ids2 :
  (forall id, id ∈ ids1 <-> id ∈ ids2) -> sizes b ids1 = sizes b ids2.
Proof.
  intros Hsame. unfold sizes. f_equal. apply set_eq. intros size.
  rewrite !family_foldl. by setoid_rewrite Hsame.
Qed.

End ClassifierFacts.

Import ClassifierFacts.

(* ================================================================== *)
(** * The Aggregator: facts *)
(* ================================================================== *)

Module AggregatorFacts.

Lemma prefix_app p x : String.prefix p (p +:+ x) = true.
Proof.
  induction p as [|c p IH]; [by destruct x|].
  change (String c p +:+ x) with (String c (p +:+ x)). simpl.
  by destruct (ascii_dec c c).
Qed.



Section Calls.
Context {world : Type}.
Variable invoke : world -> string -> value -> invocation * world.
Variables (event : value) (w : world).

Local Abbreviation first_call := (first_call invoke event w).
Local Abbreviation second_call := (second_call invoke event w).

Lemma call_outposts_spec res :
  exists errs,
    call_outposts invoke event res w
    = (Results (if succeeded (fst first_call)
                then document (fst first_call) else outposts res)
               (localzones res) (errors res ++ errs),
       snd first_call)
    /\ (if succeeded (fst first_call) then errs = []
        else exists e, errs = [e] /\ about_outposts e = true).
Proof.
  unfold call_outposts, first_call.
  destruct (invoke w "get_outposts_details" event) as [o w1]. simpl.
  destruct o as [sc [doc|msg]|msg|msg]; simpl.
  - destruct (sc =? 200).
    + exists []. by rewrite app_nil_r.
    + eexists. split; [done|]. eexists. split; [done|].
      unfold about_outposts. by rewrite prefix_app.
  - eexists. split; [done|]. eexists. split; [done|].
    unfold about_outposts. rewrite (prefix_app "Unexpected error calling get_outposts_details: ").
    by rewrite orb_true_r.
  - eexists. split; [done|]. eexists. split; [done|].
    unfold about_outposts. rewrite (prefix_app "Error calling get_outposts_details: ").
    by rewrite orb_true_r.
  - eexists. split; [done|]. eexists. split; [done|].
    unfold about_outposts. rewrite (prefix_app "Unexpected error calling get_outposts_details: ").
    by rewrite orb_true_r.
Qed.

Lemma call_localzones_spec res w1 :
  let o := invoke w1 "get_localzones_details" event in
  exists errs,
    call_localzones invoke event res w1
    = (Results (outposts res)
               (if succeeded (fst o) then document (fst o) else localzones res)
               (errors res ++ errs),
       snd o)
    /\ (if succeeded (fst o) then errs = []
        else exists e, errs = [e] /\ about_localzones e = true).
Proof.
  unfold call_localzones.
  destruct (invoke w1 "get_localzones_details" event) as [o w2]. simpl.
  destruct o as [sc [doc|msg]|msg|msg]; simpl.
  - destruct (sc =? 200).
    + exists []. by rewrite app_nil_r.
    + eexists. split; [done|]. eexists. split; [done|].
      unfold about_localzones. by rewrite prefix_app.
  - eexists. split; [done|]. eexists. split; [done|].
    unfold about_localzones. rewrite (prefix_app "Unexpected error calling get_localzones_details: ").
    by rewrite orb_true_r.
  - eexists. split; [done|]. eexists. split; [done|].
    unfold about_localzones. rewrite (prefix_app "Error calling get_localzones_details: ").
    by rewrite orb_true_r.
  - eexists. split; [done|]. eexists. split; [done|].
    unfold about_localzones. rewrite (prefix_app "Unexpected error calling get_localzones_details: ").
    by rewrite orb_true_r.
Qed.

(** What [collect] leaves in [results], and the world it ends in. *)
Lemma collect_spec :
  exists errs1 errs2,
    collect invoke event w
    = (Results (document (fst first_call)) (document (fst second_call))
               (errs1 ++ errs2),
       snd second_call)
    /\ (if succeeded (fst first_call) then errs1 = []
        else exists e, errs1 = [e] /\ about_outposts e = true)
    /\ (if succeeded (fst second_call) then errs2 = []
        else exists e, errs2 = [e] /\ about_localzones e = true).
Proof.
  unfold collect.
  destruct (call_outposts_spec (Results VNone VNone [])) as (errs1 & -> & H1).
  match goal with
  | |- context [call_localzones invoke event ?res ?w1] =>
      destruct (call_localzones_spec res w1) as (errs2 & Hc2 & H2)
  end.
  cbv zeta in Hc2, H2. rewrite Hc2.
  exists errs1, errs2. split; [|done]. unfold second_call. simpl.
  f_equal. f_equal.
  - destruct (fst first_call) as [sc [doc|msg]|msg|msg]; simpl; try done.
    by destruct (sc =? 200).
  - destruct (fst (invoke (snd first_call) "get_localzones_details" event))
      as [sc [doc|msg]|msg|msg]; simpl; try done.
    by destruct (sc =? 200).
Qed.

(** With both invocations successful the handler answers what
    [parse_edge_discovery_data] makes of the two documents. *)
Lemma lambda_handler_success :
  succeeded (fst first_call) = true ->
  succeeded (fst second_call) = true ->
  lambda_handler invoke event w
  = (public_local_zones ← parse_local_zones (document (fst second_call));
     outposts ← parse_outposts (document (fst first_call));
     Ok (Response 200
           (json_dumps (answer_document public_local_zones outposts))),
     snd second_call).
Proof.
  intros H1 H2. unfold lambda_handler.
  destruct collect_spec as (errs1 & errs2 & -> & He1 & He2).
  rewrite H1 in He1. rewrite H2 in He2. subst. unfold respond. simpl.
  unfold parse_edge_discovery_data. simpl.
  destruct (parse_local_zones _); [|done]. simpl.
  by destruct (parse_outposts _).
Qed.

End Calls.

End AggregatorFacts.

Import AggregatorFacts.

(* ================================================================== *)
(** * The answer document: facts *)
(* ================================================================== *)

Module AnswerFacts.

Lemma bind_Ok {A B} (x : A) (k : A -> result B) : Ok x ≫= k = k x.
Proof. reflexivity. Qed.

Ltac run :=
  repeat first [rewrite bind_Ok | progress cbn beta iota delta [items iter get]].



Lemma lookup_contains key entries v :
  lookup key entries = Some v ->
  truthy (VDict entries) = true
  /\ contains key (VDict entries) = Ok true
  /\ getitem (VDict entries) key = Ok v.
Proof.
  intros Hl. split; [by destruct entries|]. simpl. rewrite Hl.
  by split.
Qed.


Lemma for_each_names_type infos : forall ids acc,
  Forall2 names_type infos ids ->
  for_each (fun acc instance_type_info =>
              t ← getitem instance_type_info "InstanceType";
              Ok (acc ++ [t])) infos acc
  = Ok (acc ++ (identifier <$> ids)).
Proof.
  induction infos as [|info infos IH]; intros ids acc Hall;
    inversion Hall as [|? id ? ids' (fields & -> & Hl) Hrest]; subst; simpl.
  - by rewrite app_nil_r.
  - rewrite Hl. run.
    rewrite (IH _ _ Hrest). by rewrite <- app_assoc.
Qed.

Lemma server_instance_types_hosts acc server ids :
  hosts server ids ->
  server_instance_types acc server = Ok (acc ++ (identifier <$> ids)).
Proof.
  intros (fields & infos & -> & Hinfos & Hall). unfold server_instance_types.
  simpl. rewrite Hinfos. run.
  by apply for_each_names_type.
Qed.

Lemma for_each_servers servers : forall idss acc,
  Forall2 hosts servers idss ->
  for_each server_instance_types servers acc
  = Ok (acc ++ (identifier <$> concat idss)).
Proof.
  induction servers as [|server servers IH]; intros idss acc Hall;
    inversion Hall as [|? ids ? idss' Hserver Hrest]; subst; simpl.
  - by rewrite app_nil_r.
  - rewrite (server_instance_types_hosts acc server ids Hserver).
    run.
    rewrite (IH _ _ Hrest). by rewrite fmap_app, app_assoc.
Qed.


End AnswerFacts.

Import AnswerFacts.

(* ================================================================== *)
(** * The catalog writers: facts *)
(* ================================================================== *)

Module BatchFacts.

Import Batch.

Section Store.
Context {store : Type}.
Variable put_item : store -> Dynamo.item -> result unit * store.

Local Abbreviation put_all := (put_all put_item).

Lemma localzones_loop_written zones : forall n s s',
  put_all (zone_items zones) s = Some s' ->
  GetLocalzonesDetails.write_loop put_item zones n s
  = (Ok (n + length zones)%nat, s').
Proof.
  induction zones as [|[zone_name zd] zones IH]; intros n s s'; simpl.
  - intros [= ->]. by rewrite Nat.add_0_r.
  - destruct (put_item s _) as [[[]|e] s1]; [|done].
    intros Hrest. rewrite (IH _ _ _ Hrest). f_equal. f_equal. lia.
Qed.

Lemma localzones_loop_blocked before : forall n s s1 r after e s2,
  put_all (zone_items before) s = Some s1 ->
  put_item s1 (GetLocalzonesDetails.item_of (snd r)) = (Raise e, s2) ->
  GetLocalzonesDetails.write_loop put_item (before ++ r :: after) n s
  = (Raise e, s2).
Proof.
  induction before as [|[zone_name zd] before IH];
    intros n s s1 [r_name r] after e s2; simpl.
  - intros [= ->] Hput. by rewrite Hput.
  - destruct (put_item s _) as [[[]|e'] s']; [|done].
    intros Hbefore Hput. by eapply (IH _ _ _ (r_name, r)).
Qed.

Lemma outposts_loop_written outposts : forall n s s',
  put_all (outpost_items outposts) s = Some s' ->
  GetOutpostsDetails.write_loop put_item outposts n s
  = (Ok (n + length outposts)%nat, s').
Proof.
  induction outposts as [|[outpost_id data] outposts IH]; intros n s s'; simpl.
  - intros [= ->]. by rewrite Nat.add_0_r.
  - destruct (put_item s _) as [[[]|e] s1]; [|done].
    intros Hrest. rewrite (IH _ _ _ Hrest). f_equal. f_equal. lia.
Qed.

Lemma outposts_loop_blocked before : forall n s s1 r after e s2,
  put_all (outpost_items before) s = Some s1 ->
  put_item s1 (GetOutpostsDetails.item_of (fst r) (snd r)) = (Raise e, s2) ->
  GetOutpostsDetails.write_loop put_item (before ++ r :: after) n s
  = (Raise e, s2).
Proof.
  induction before as [|[outpost_id data] before IH];
    intros n s s1 [r_id r] after e s2; simpl.
  - intros [= ->] Hput. by rewrite Hput.
  - destruct (put_item s _) as [[[]|e'] s']; [|done].
    intros Hbefore Hput. by eapply (IH _ _ _ (r_id, r)).
Qed.

End Store.

End BatchFacts.

(* ================================================================== *)
(** * Parent-Zone Lookup: facts *)
(* ================================================================== *)

Module Lookup.

Import Dynamo GetParentAz.





End Lookup.

(* ================================================================== *)
(** * Concrete runs: facts *)
(* ================================================================== *)

Module ScenariosFacts.

Example asset_info_bare_asset :
  GetOutpostsDetails.asset_info bare_asset = Ok bare_server.
Proof. reflexivity. Qed.

Example one_zone_no_outposts :
  fst (lambda_handler (logging both_succeed) event [])
  = Ok (Response 200 (json_dumps
      (VDict [("answer", VDict [
         ("public_local_zones",
          VList [VDict [("edge_id", VStr "us-west-2-lax-1a");
                        ("parent_region", VStr "us-west-2");
                        ("parent_az", VStr "usw2-az1");
                        ("c_family", VList []);
                        ("m_family", VList []);
                        ("r_family", VList [VStr "xlarge"])]]);
         ("outposts", VDict [])])]))).
Proof. vm_compute. reflexivity. Qed.

End ScenariosFacts.

Import ScenariosFacts.

(* ================================================================== *)
(** * The properties of the specification *)
(* ================================================================== *)



(** C4 as the specification words it, refuted: with both collectors
    failing, the first function invoked is [get_outposts_details], and
    the first error entry is about the extension collector, not about
    the zone collector. *)
Lemma C4_zone_collector_first_counterexample :
  let run := collect (Scenarios.logging Scenarios.both_fail) Scenarios.event [] in
  snd run <> ["get_localzones_details"; "get_outposts_details"]
  /\ ~ (exists e_zone e_extension,
          errors (fst run) = [e_zone; e_extension]
          /\ about_localzones e_zone = true
          /\ about_outposts e_extension = true).
Proof.
  split.
  - vm_compute. discriminate.
  - intros (e_zone & e_extension & Herrs & Hz & _).
    vm_compute in Herrs. injection Herrs as <- <-. vm_compute in Hz. discriminate.
Qed.

(** C4, amended. Within one request the Aggregator invokes
    [get_outposts_details] (the extension collector) first and
    [get_localzones_details] (the zone collector) second, the second in
    the world the first has left, and nothing else; the error list is the
    extension collector's entry, if it failed, followed by the zone
    collector's entry, if it failed. *)
Theorem C4_extension_collector_first :
  forall (world : Type)
         (invoke : world -> string -> value -> invocation * world)
         (event : value) (w : world),
    let extension := invoke w "get_outposts_details" event in
    let zone := invoke (snd extension) "get_localzones_details" event in
    snd (lambda_handler invoke event w) = snd zone
    /\ exists errs_extension errs_zone,
         errors (fst (collect invoke event w)) = errs_extension ++ errs_zone
         /\ (if succeeded (fst extension) then errs_extension = []
             else exists e, errs_extension = [e] /\ about_outposts e = true)
         /\ (if succeeded (fst zone) then errs_zone = []
             else exists e, errs_zone = [e] /\ about_localzones e = true).
Proof.
  intros world invoke event w extension zone.
  destruct (collect_spec invoke event w) as (errs1 & errs2 & Hc & H1 & H2).
  split.
  - unfold lambda_handler. by rewrite Hc.
  - exists errs1, errs2. by rewrite Hc.
Qed.

(** C5, at an input where it fails: both invocations succeed, and the
    extension collector reports an asset without
    [InstanceTypeCapacities], whose [InstanceType] entry is then [None];
    [parse_edge_discovery_data] raises a [TypeError] on it, outside any
    [try], and the handler raises instead of replying. *)
Theorem C5_parse_error_escapes :
  fst (lambda_handler (Scenarios.logging Scenarios.both_succeed_bare)
         Scenarios.event [])
  = Raise TypeError.
Proof. vm_compute. reflexivity. Qed.

(** C2. For a list of capacity-type identifiers (strings, or [None]),
    [extract_instance_families] does not raise, and a size is in
    [c_family] (in [m_family], in [r_family]) exactly when some
    identifier of the list starts with [c] (with [m], with [r]), has a
    dot, and has that size as the token after its first dot.  An
    identifier that is [None], has no dot (the empty string too) or starts
    with another character changes no bucket.  The list
    ["c6i.4xlarge"; "c6i.2xlarge"; "m5.large"] gives
    [["2xlarge"; "4xlarge"]], [["large"]] and [[]]. *)
Theorem C2_family_classifier :
  (forall ids : list (option string),
      exists c m r,
        extract_instance_families (VList (identifier <$> ids)) = Ok (c, m, r)
        /\ (forall size,
              size ∈ c <-> exists id, Some id ∈ ids /\ designates id "c" size)
        /\ (forall size,
              size ∈ m <-> exists id, Some id ∈ ids /\ designates id "m" size)
        /\ (forall size,
              size ∈ r <-> exists id, Some id ∈ ids /\ designates id "r" size))
  /\ (forall (ids1 ids2 : list (option string)) (id : option string),
        unclassified id ->
        extract_instance_families (VList (identifier <$> ids1 ++ id :: ids2))
        = extract_instance_families (VList (identifier <$> ids1 ++ ids2)))
  /\ extract_instance_families
       (VList [VStr "c6i.4xlarge"; VStr "c6i.2xlarge"; VStr "m5.large"])
     = Ok (["2xlarge"; "4xlarge"], ["large"], []).
Proof.
  split; [|split].
  - intros ids. exists (sizes C ids), (sizes M ids), (sizes R ids).
    split; [apply extract_identifiers|].
    split; [|split]; intros size;
      [apply (elem_of_sizes C)|apply (elem_of_sizes M)|apply (elem_of_sizes R)].
  - intros ids1 ids2 id Hid. rewrite !extract_identifiers.
    by rewrite !(sizes_unclassified _ ids1 id ids2 Hid).
  - vm_compute. reflexivity.
Qed.

(** An identifier without a dot between two classified ones. *)
Lemma C2_family_classifier_witness :
  unclassified (Some "t3micro")
  /\ extract_instance_families
       (VList (identifier <$> [Some "c5.large"] ++ Some "t3micro" :: [Some "r5.xlarge"]))
     = extract_instance_families
         (VList (identifier <$> [Some "c5.large"] ++ [Some "r5.xlarge"])).
Proof.
  split.
  - left. reflexivity.
  - apply (proj1 (proj2 C2_family_classifier)). left. reflexivity.
Defined.

(** C6. For a list of capacity-type identifiers, each of the three
    sequences [extract_instance_families] returns is sorted in the
    lexicographic order of strings and has no duplicates, and two lists
    with the same elements (a permutation of a list, or a list with some
    identifiers repeated) give the same three sequences. *)
Theorem C6_families_sorted_and_canonical :
  (forall ids : list (option string),
      exists c m r,
        extract_instance_families (VList (identifier <$> ids)) = Ok (c, m, r)
        /\ (StronglySorted String.le c /\ NoDup c)
        /\ (StronglySorted String.le m /\ NoDup m)
        /\ (StronglySorted String.le r /\ NoDup r))
  /\ (forall ids1 ids2 : list (option string),
        (forall id, id ∈ ids1 <-> id ∈ ids2) ->
        extract_instance_families (VList (identifier <$> ids1))
        = extract_instance_families (VList (identifier <$> ids2))).
Proof.
  split.
  - intros ids. exists (sizes C ids), (sizes M ids), (sizes R ids).
    split; [apply extract_identifiers|].
    repeat split; (apply sorted_StronglySorted || apply sorted_NoDup).
  - intros ids1 ids2 Hsame. rewrite !extract_identifiers.
    by rewrite !(sizes_same_elements _ ids1 ids2 Hsame).
Qed.

(** A list, and the same identifiers reordered with one repeated. *)
Lemma C6_families_sorted_and_canonical_witness :
  let ids1 := [Some "c5.large"; Some "m5.xlarge"] in
  let ids2 := [Some "m5.xlarge"; Some "c5.large"; Some "m5.xlarge"] in
  (forall id, id ∈ ids1 <-> id ∈ ids2)
  /\ extract_instance_families (VList (identifier <$> ids1))
     = extract_instance_families (VList (identifier <$> ids2)).
Proof.
  intros ids1 ids2.
  assert (forall id, id ∈ ids1 <-> id ∈ ids2) as Hsame.
  { intros id. unfold ids1, ids2. rewrite !elem_of_cons. tauto. }
  split; [exact Hsame|].
  exact (proj2 C6_families_sorted_and_canonical ids1 ids2 Hsame).
Defined.








(** C9 as the specification words it, refuted: in a batch of two
    zones whose first has no [ZoneId], the first put raises and
    [write_to_dynamo] raises with it; the second zone, whose put would
    have succeeded, is not written, and no count is returned. *)
Lemma C9_failed_write_blocks_the_rest_counterexample :
  let batch := [("us-west-2-phx-2a", Scenarios.nameless);
                ("us-west-2-lax-1a", Scenarios.lax)] in
  fst (Dynamo.put_item [] (GetLocalzonesDetails.item_of Scenarios.lax)) = Ok ()
  /\ GetLocalzonesDetails.write_to_dynamo Dynamo.put_item batch []
     = (Raise (ClientError "ValidationException"), []).
Proof. split; vm_compute; reflexivity. Qed.

(** C9, amended. [write_to_dynamo] of either collector puts one item
    per input record, in input order.  When no put raises it returns
    the number of input records, and the store is the one these puts
    leave.  When a put raises, [write_to_dynamo] raises the same
    exception at once: the records before it have been put, the
    records after it are not put, and no count is returned. *)
Theorem C9_catalog_writer :
  forall (store : Type)
         (put_item : store -> Dynamo.item -> result unit * store),
    (forall zones s s',
        Batch.put_all put_item (Batch.zone_items zones) s = Some s' ->
        GetLocalzonesDetails.write_to_dynamo put_item zones s
        = (Ok (length zones), s'))
    /\ (forall before r after s s1 e s2,
          Batch.put_all put_item (Batch.zone_items before) s = Some s1 ->
          put_item s1 (GetLocalzonesDetails.item_of (snd r)) = (Raise e, s2) ->
          GetLocalzonesDetails.write_to_dynamo put_item (before ++ r :: after) s
          = (Raise e, s2))
    /\ (forall outposts s s',
          Batch.put_all put_item (Batch.outpost_items outposts) s = Some s' ->
          GetOutpostsDetails.write_to_dynamo put_item outposts s
          = (Ok (length outposts), s'))
    /\ (forall before r after s s1 e s2,
          Batch.put_all put_item (Batch.outpost_items before) s = Some s1 ->
          put_item s1 (GetOutpostsDetails.item_of (fst r) (snd r)) = (Raise e, s2) ->
          GetOutpostsDetails.write_to_dynamo put_item (before ++ r :: after) s
          = (Raise e, s2)).
Proof.
  intros store put_item. repeat split.
  - intros zones s s' H. by apply (BatchFacts.localzones_loop_written put_item zones 0).
  - intros before r after s s1 e s2 H1 H2.
    by apply (BatchFacts.localzones_loop_blocked put_item before 0 s s1).
  - intros outposts s s' H. by apply (BatchFacts.outposts_loop_written put_item outposts 0).
  - intros before r after s s1 e s2 H1 H2.
    by apply (BatchFacts.outposts_loop_blocked put_item before 0 s s1).
Qed.

(** One zone written; then a batch whose second zone has no key. *)
Lemma C9_catalog_writer_witness :
  GetLocalzonesDetails.write_to_dynamo Dynamo.put_item
    [("us-west-2-lax-1a", Scenarios.lax)] []
  = (Ok 1%nat, Scenarios.catalog)
  /\ GetLocalzonesDetails.write_to_dynamo Dynamo.put_item
       ([("us-west-2-lax-1a", Scenarios.lax)]
          ++ ("us-west-2-phx-2a", Scenarios.nameless)
          :: [("us-west-2-lax-1a", Scenarios.lax)]) []
     = (Raise (ClientError "ValidationException"), Scenarios.catalog).
Proof.
  pose proof (C9_catalog_writer _ Dynamo.put_item) as (Hwritten & Hblocked & _).
  split.
  - exact (Hwritten [("us-west-2-lax-1a", Scenarios.lax)] [] Scenarios.catalog
             eq_refl).
  - exact (Hblocked [("us-west-2-lax-1a", Scenarios.lax)]
             ("us-west-2-phx-2a", Scenarios.nameless)
             [("us-west-2-lax-1a", Scenarios.lax)] [] Scenarios.catalog
             (ClientError "ValidationException") Scenarios.catalog
             eq_refl eq_refl).
Defined.



(* ================================================================== *)
(** * Further properties of the Family Classifier *)
(* ================================================================== *)

Module ClassifierMore.

(** The loop body on any element: skipped when falsy, classified when a
    string, an [AttributeError] otherwise. *)
Lemma classify_cases acc x :
  classify acc x
  = if negb (truthy x) then Ok acc
    else match x with
         | VStr s => Ok (place acc (bucket_of (Some s)))
         | _ => Raise AttributeError
         end.
Proof.
  destruct x as [|b|n|f|s|l|e]; unfold classify;
    try (by destruct (negb (truthy _))).
  change (VStr s) with (identifier (Some s)) at 1 2.
  fold (classify acc (identifier (Some s))). rewrite classify_identifier.
  by destruct s.
Qed.

Lemma for_each_chars s acc : for_each classify (chars s) acc = Ok acc.
Proof.
  induction s as [|c s IH]; [done|].
  cbn [chars for_each]. rewrite classify_cases.
  change (negb (truthy (VStr (String c "")))) with false. cbv iota.
  assert (bucket_of (Some (String c "")) = None) as ->; [|apply IH].
  apply bucket_of_unclassified. cbn [unclassified dot_free].
  destruct (Ascii.eqb c ".") eqn:Hc; [|by left].
  apply Ascii.eqb_eq in Hc as ->. by right.
Qed.

Lemma for_each_keys (entries : list (string * value)) acc :
  exists acc',
    for_each classify (map (fun e => VStr (fst e)) entries) acc = Ok acc'.
Proof.
  revert acc. induction entries as [|[k v] entries IH]; intros acc; simpl.
  - by eexists.
  - rewrite classify_cases. simpl. destruct (negb _); apply IH.
Qed.

Lemma for_each_raises l : forall acc,
  Exists (fun x => truthy x = true /\ forall s, x <> VStr s) l ->
  for_each classify l acc = Raise AttributeError.
Proof.
  induction l as [|x l IH]; intros acc Hbad; [by apply Exists_nil in Hbad|].
  simpl. rewrite classify_cases.
  apply Exists_cons in Hbad as [[Ht Hns]|Hbad].
  - rewrite Ht. simpl. destruct x; try done. by destruct (Hns s).
  - destruct (negb (truthy x)); simpl; [by apply IH|].
    destruct x; try done. simpl. by apply IH.
Qed.

Lemma for_each_returns l : forall acc,
  ~ Exists (fun x => truthy x = true /\ forall s, x <> VStr s) l ->
  exists acc', for_each classify l acc = Ok acc'.
Proof.
  induction l as [|x l IH]; intros acc Hgood; simpl; [by eexists|].
  rewrite classify_cases.
  assert (~ Exists (fun x => truthy x = true /\ forall s, x <> VStr s) l)
    as Hl by (intros ?; apply Hgood; by right).
  destruct (truthy x) eqn:Ht; simpl; [|by apply IH].
  destruct x; try (by apply IH);
    by (exfalso; apply Hgood; left; split; [done|intros ?; discriminate]).
Qed.

Lemma unsplittable_dec (x : value) :
  Decision (truthy x = true /\ forall s, x <> VStr s).
Proof.
  destruct x as [|b|n|f|s|l|e];
    try (destruct (truthy _) eqn:Ht;
         [left; split; [done|intros ?; discriminate]
         |right; intros [? _]; congruence]).
  right. intros [_ Hns]. by apply (Hns s).
Qed.

Lemma for_each_cases l acc :
  (Exists (fun x => truthy x = true /\ forall s, x <> VStr s) l
   /\ for_each classify l acc = Raise AttributeError)
  \/ (~ Exists (fun x => truthy x = true /\ forall s, x <> VStr s) l
      /\ exists acc', for_each classify l acc = Ok acc').
Proof.
  destruct (@Exists_dec _ _ unsplittable_dec l) as [Hbad|Hgood].
  - left. split; [done|]. by apply for_each_raises.
  - right. split; [done|]. by apply for_each_returns.
Qed.

Lemma extract_str s : extract_instance_families (VStr s) = Ok ([], [], []).
Proof.
  unfold extract_instance_families. simpl. by rewrite for_each_chars.
Qed.

Lemma extract_dict entries :
  exists fams, extract_instance_families (VDict entries) = Ok fams.
Proof.
  unfold extract_instance_families. simpl.
  destruct (for_each_keys entries (Families ∅ ∅ ∅)) as [acc ->].
  by eexists.
Qed.

Lemma sorted_empty : sorted ∅ = [].
Proof. reflexivity. Qed.

Lemma length_sorted (s : gset string) : length (sorted s) = size s.
Proof.
  unfold sorted. by rewrite (merge_sort_Permutation String.le (elements s)).
Qed.

Lemma size_place acc contribution :
  (size (c_family (place acc contribution))
   + size (m_family (place acc contribution))
   + size (r_family (place acc contribution))
   <= S (size (c_family acc) + size (m_family acc) + size (r_family acc)))%nat.
Proof.
  assert (forall (x : string) (X : gset string),
             (size ({[x]} ∪ X) <= S (size X))%nat) as Hadd.
  { intros x X. rewrite size_union_alt, size_singleton.
    apply le_n_S, subseteq_size. by apply subseteq_difference_l. }
  destruct contribution as [[[] size']|]; simpl;
    try (pose proof (Hadd size' (c_family acc)));
    try (pose proof (Hadd size' (m_family acc)));
    try (pose proof (Hadd size' (r_family acc))); lia.
Qed.

Lemma size_foldl ids : forall acc,
  let acc' := foldl (fun acc id => place acc (bucket_of id)) acc ids in
  (size (c_family acc') + size (m_family acc') + size (r_family acc')
   <= size (c_family acc) + size (m_family acc) + size (r_family acc)
      + length ids)%nat.
Proof.
  induction ids as [|id ids IH]; intros acc; simpl; [lia|].
  specialize (IH (place acc (bucket_of id))). simpl in IH.
  pose proof (size_place acc (bucket_of id)). lia.
Qed.

End ClassifierMore.

(** X1. Handed a string instead of a list, [extract_instance_families]
    loops over its characters, none of which is classified: the three
    sequences are empty, whatever the string.  Handed a dict it loops
    over the keys and does not raise either. *)
Theorem X1_extract_of_a_string_is_empty :
  (forall s : string,
      extract_instance_families (VStr s) = Ok ([], [], []))
  /\ (forall entries : list (string * value),
        exists c m r, extract_instance_families (VDict entries) = Ok (c, m, r)).
Proof.
  split; [apply ClassifierMore.extract_str|].
  intros entries. destruct (ClassifierMore.extract_dict entries) as [[[c m] r] ->].
  by eexists _, _, _.
Qed.

(** X2. [extract_instance_families] raises [TypeError] exactly on what
    cannot be iterated ([None], a bool, a number), raises
    [AttributeError] exactly on a list with an element that is truthy
    and not a string, and raises nothing else. *)
Theorem X2_extract_raises :
  forall v : value,
    (extract_instance_families v = Raise TypeError
     <-> match v with
         | VNone | VBool _ | VInt _ | VFloat _ => True
         | _ => False
         end)
    /\ (extract_instance_families v = Raise AttributeError
        <-> exists l,
              v = VList l
              /\ Exists (fun x => truthy x = true /\ forall s, x <> VStr s) l)
    /\ (forall e,
          extract_instance_families v = Raise e ->
          e = TypeError \/ e = AttributeError).
Proof.
  intros v.
  assert (forall l,
    (Exists (fun x => truthy x = true /\ forall s, x <> VStr s) l
     /\ extract_instance_families (VList l) = Raise AttributeError)
    \/ (~ Exists (fun x => truthy x = true /\ forall s, x <> VStr s) l
        /\ exists fams, extract_instance_families (VList l) = Ok fams))
    as Hlist.
  { intros l. unfold extract_instance_families. simpl.
    destruct (ClassifierMore.for_each_cases l (Families ∅ ∅ ∅))
      as [[Hbad ->]|[Hgood [acc ->]]]; [by left|right].
    split; [done|]. by eexists. }
  destruct v as [| | | |s|l|entries]; simpl;
    try (split; [done|split; [split; [done|by intros (? & ? & _)]
                             |intros e [= <-]; by left]]).
  - rewrite ClassifierMore.extract_str.
    split; [done|]. split; [|done]. split; [done|]. by intros (? & ? & _).
  - destruct (Hlist l) as [[Hbad Hr]|[Hgood [fams Hr]]]; rewrite Hr.
    + split; [done|]. split; [|intros e [= <-]; by right].
      split; [by exists l|done].
    + split; [done|]. split; [|done].
      split; [done|]. intros (l' & [= <-] & Hbad). done.
  - destruct (ClassifierMore.extract_dict entries) as [fams Hr].
    rewrite Hr. split; [done|]. split; [|done].
    split; [done|]. by intros (? & ? & _).
Qed.

(** A list with a number after an identifier. *)
Lemma X2_extract_raises_witness :
  extract_instance_families (VList [VStr "c5.large"; VInt 5])
  = Raise AttributeError.
Proof.
  apply (proj1 (proj2 (X2_extract_raises (VList [VStr "c5.large"; VInt 5])))).
  exists [VStr "c5.large"; VInt 5]. split; [reflexivity|].
  right. left. split; [reflexivity|]. intros s. discriminate.
Defined.

(** X3. Classifying a concatenation of two identifier lists gives, in
    each bucket, exactly the sizes that one of the two lists gives: the
    sequences of [ids1 ++ ids2] hold the union of the sequences of
    [ids1] and of [ids2]. *)
Theorem X3_extract_of_concatenation :
  forall ids1 ids2 : list (option string),
  exists c1 m1 r1 c2 m2 r2 c m r,
    extract_instance_families (VList (identifier <$> ids1)) = Ok (c1, m1, r1)
    /\ extract_instance_families (VList (identifier <$> ids2)) = Ok (c2, m2, r2)
    /\ extract_instance_families (VList (identifier <$> ids1 ++ ids2))
       = Ok (c, m, r)
    /\ (forall size, size ∈ c <-> size ∈ c1 \/ size ∈ c2)
    /\ (forall size, size ∈ m <-> size ∈ m1 \/ size ∈ m2)
    /\ (forall size, size ∈ r <-> size ∈ r1 \/ size ∈ r2).
Proof.
  intros ids1 ids2.
  exists (sizes C ids1), (sizes M ids1), (sizes R ids1),
         (sizes C ids2), (sizes M ids2), (sizes R ids2),
         (sizes C (ids1 ++ ids2)), (sizes M (ids1 ++ ids2)),
         (sizes R (ids1 ++ ids2)).
  rewrite !extract_identifiers.
  assert (forall b size,
             size ∈ sizes b (ids1 ++ ids2)
             <-> size ∈ sizes b ids1 \/ size ∈ sizes b ids2) as Hunion.
  { intros b size. rewrite !elem_of_sizes. split.
    - intros (id & [Hin|Hin]%elem_of_app & Hd); [left|right]; by exists id.
    - intros [(id & Hin & Hd)|(id & Hin & Hd)]; exists id;
        (split; [apply elem_of_app; auto|done]). }
  repeat split; try done; by apply Hunion.
Qed.

(** X4. Every identifier puts at most one size into at most one
    bucket: the three sequences together are never longer than the input
    list. *)
Theorem X4_extract_is_no_longer_than_its_input :
  forall ids : list (option string),
  exists c m r,
    extract_instance_families (VList (identifier <$> ids)) = Ok (c, m, r)
    /\ (length c + length m + length r <= length ids)%nat.
Proof.
  intros ids. exists (sizes C ids), (sizes M ids), (sizes R ids).
  split; [apply extract_identifiers|].
  unfold sizes. rewrite !ClassifierMore.length_sorted. unfold family.
  pose proof (ClassifierMore.size_foldl ids (Families ∅ ∅ ∅)) as Hle.
  cbv zeta in Hle. cbn [c_family m_family r_family] in Hle.
  rewrite !size_empty in Hle. lia.
Qed.

(* ================================================================== *)
(** * Further properties of the Aggregator *)
(* ================================================================== *)

Module AggregatorMore.

(** A payload that is falsy, or a dict without [body], or whose body is
    a dict without the entry looked for, gives the empty part of the
    answer. *)
Lemma parse_local_zones_nothing v :
  truthy v = false
  \/ (exists top, v = VDict top /\ lookup "body" top = None)
  \/ (exists top body,
        v = VDict top /\ lookup "body" top = Some (VDict body)
        /\ lookup "localZones" body = None) ->
  parse_local_zones v = Ok [].
Proof.
  unfold parse_local_zones.
  intros [->|[(top & -> & Hb)|(top & body & -> & Hb & Hz)]]; [done| |].
  - simpl. rewrite Hb. by destruct top.
  - simpl. rewrite Hb. simpl. rewrite Hz. by destruct top.
Qed.

Lemma parse_outposts_nothing v :
  truthy v = false
  \/ (exists top, v = VDict top /\ lookup "body" top = None)
  \/ (exists top body,
        v = VDict top /\ lookup "body" top = Some (VDict body)
        /\ lookup "outposts" body = None) ->
  parse_outposts v = Ok (VDict []).
Proof.
  unfold parse_outposts.
  intros [->|[(top & -> & Hb)|(top & body & -> & Hb & Hz)]]; [done| |].
  - simpl. rewrite Hb. by destruct top.
  - simpl. rewrite Hb. simpl. rewrite Hz. by destruct top.
Qed.


Lemma zone_entry_zone_of z :
  zone_entry (zone_of z)
  = VDict [("edge_id", VStr (fst z));
           ("parent_region", GetLocalzonesDetails.RegionName (snd z));
           ("parent_az", GetLocalzonesDetails.ParentAZ (snd z));
           ("c_family",
            VList (VStr <$> sizes C (Some <$> GetLocalzonesDetails.InstanceTypes (snd z))));
           ("m_family",
            VList (VStr <$> sizes M (Some <$> GetLocalzonesDetails.InstanceTypes (snd z))));
           ("r_family",
            VList (VStr <$> sizes R (Some <$> GetLocalzonesDetails.InstanceTypes (snd z))))].
Proof. reflexivity. Qed.

Lemma for_each_app {A S} (body : S -> A -> result S) xs ys : forall s,
  for_each body (xs ++ ys) s = (s' ← for_each body xs s; for_each body ys s').
Proof.
  induction xs as [|x xs IH]; intros s; simpl; [done|].
  destruct (body s x); simpl; [apply IH|done].
Qed.

(** A server whose [InstanceType] is [None] stops the parse with a
    [TypeError], whatever follows it. *)
Lemma for_each_servers_none good idss bad later acc :
  Forall2 hosts good idss ->
  lookup "InstanceType" bad = Some VNone ->
  for_each server_instance_types (good ++ VDict bad :: later) acc
  = Raise TypeError.
Proof.
  intros Hgood Hbad. rewrite for_each_app.
  rewrite (for_each_servers good idss acc Hgood), bind_Ok.
  cbn [for_each]. unfold server_instance_types. cbn [get].
  by rewrite Hbad.
Qed.

Lemma parse_outposts_none top body outpost_id fields rest good idss bad later :
  lookup "body" top = Some (VDict body) ->
  lookup "outposts" body = Some (VDict ((outpost_id, VDict fields) :: rest)) ->
  lookup "Servers" fields = Some (VList (good ++ VDict bad :: later)) ->
  Forall2 hosts good idss ->
  lookup "InstanceType" bad = Some VNone ->
  parse_outposts (VDict top) = Raise TypeError.
Proof.
  intros Hbody Hracks Hservers Hgood Hbad. unfold parse_outposts.
  destruct (lookup_contains _ _ _ Hbody) as (-> & -> & ->). run.
  destruct (lookup_contains _ _ _ Hracks) as (_ & -> & ->). run.
  unfold outpost. cbn [get]. rewrite Hservers. cbn [default id iter]. run.
  by rewrite (for_each_servers_none good idss bad later [] Hgood Hbad).
Qed.

Lemma asset_info_without_capacities asset :
  lookup "ComputeAttributes" asset = None
  \/ (exists attrs,
        lookup "ComputeAttributes" asset = Some (VDict attrs)
        /\ lookup "InstanceTypeCapacities" attrs = None) ->
  exists fields,
    GetOutpostsDetails.asset_info asset = Ok (VDict fields)
    /\ lookup "InstanceType" fields = Some VNone.
Proof.
  unfold GetOutpostsDetails.asset_info.
  intros [->|(attrs & -> & Hcap)]; simpl; [by eexists|].
  rewrite Hcap. by eexists.
Qed.

End AggregatorMore.

(** X5. A collector that catches its own exception returns its
    status-500 dict; when the invocation itself returns with status 200,
    the Aggregator records no error for it.  With the extension
    collector's failure dict the answer has an empty [outposts] entry,
    with the zone collector's it has no zones, and the reply is the
    status-200 one in both cases. *)
Theorem X5_failure_document_counts_as_success :
  forall (world : Type)
         (invoke : world -> string -> value -> invocation * world)
         (event : value) (w : world) (msg : string),
    (forall zone_doc zones,
        fst (first_call invoke event w)
        = Returned 200 (Json (failure_response msg)) ->
        fst (second_call invoke event w) = Returned 200 (Json zone_doc) ->
        parse_local_zones zone_doc = Ok zones ->
        fst (lambda_handler invoke event w)
        = Ok (Response 200 (json_dumps (answer_document zones (VDict [])))))
    /\ (forall extension_doc extension_entry,
          fst (first_call invoke event w) = Returned 200 (Json extension_doc) ->
          parse_outposts extension_doc = Ok extension_entry ->
          fst (second_call invoke event w)
          = Returned 200 (Json (failure_response msg)) ->
          fst (lambda_handler invoke event w)
          = Ok (Response 200
                  (json_dumps (answer_document [] extension_entry)))).
Proof.
  intros world invoke event w msg. split.
  - intros zone_doc zones Hext Hzone Hzones.
    rewrite lambda_handler_success; rewrite ?Hzone, ?Hext; try done.
    simpl document. by rewrite Hzones.
  - intros extension_doc extension_entry Hext Hentry Hzone.
    rewrite lambda_handler_success; rewrite ?Hzone, ?Hext; try done.
    simpl document. by rewrite Hentry.
Qed.

(** Both collectors return their failure dict. *)
Lemma X5_failure_document_counts_as_success_witness :
  fst (lambda_handler
         (logging (fun _ => Returned 200 (Json (failure_response "AccessDenied"))))
         Scenarios.event [])
  = Ok (Response 200 (json_dumps (answer_document [] (VDict [])))).
Proof.
  exact (proj1 (X5_failure_document_counts_as_success _
           (logging (fun _ => Returned 200 (Json (failure_response "AccessDenied"))))
           Scenarios.event [] "AccessDenied")
           (failure_response "AccessDenied") [] eq_refl eq_refl eq_refl).
Defined.



(** X7. [asset_info] stores [None] under [InstanceType] for an asset
    without [ComputeAttributes], or whose [ComputeAttributes] have no
    [InstanceTypeCapacities].  Whenever the first rack of the extension
    collector's report has such a server after servers that carry
    capacity types, [parse_outposts] raises a [TypeError], and with both
    invocations successful the handler raises it too. *)
Theorem X7_server_without_capacities_raises :
  (forall asset : list (string * value),
      lookup "ComputeAttributes" asset = None
      \/ (exists attrs,
            lookup "ComputeAttributes" asset = Some (VDict attrs)
            /\ lookup "InstanceTypeCapacities" attrs = None) ->
      exists fields,
        GetOutpostsDetails.asset_info asset = Ok (VDict fields)
        /\ lookup "InstanceType" fields = Some VNone)
  /\ (forall (world : Type)
             (invoke : world -> string -> value -> invocation * world)
             (event : value) (w : world) (zone_doc : value) (zones : list value)
             (top body fields bad : list (string * value))
             (outpost_id : string) (rest : list (string * value))
             (good later : list value) (idss : list (list (option string))),
        fst (second_call invoke event w) = Returned 200 (Json zone_doc) ->
        parse_local_zones zone_doc = Ok zones ->
        fst (first_call invoke event w) = Returned 200 (Json (VDict top)) ->
        lookup "body" top = Some (VDict body) ->
        lookup "outposts" body
        = Some (VDict ((outpost_id, VDict fields) :: rest)) ->
        lookup "Servers" fields = Some (VList (good ++ VDict bad :: later)) ->
        Forall2 hosts good idss ->
        lookup "InstanceType" bad = Some VNone ->
        parse_outposts (VDict top) = Raise TypeError
        /\ fst (lambda_handler invoke event w) = Raise TypeError).
Proof.
  split; [apply AggregatorMore.asset_info_without_capacities|].
  intros world invoke event w zone_doc zones top body fields bad outpost_id
    rest good later idss Hzone Hzones Hext Hbody Hracks Hservers Hgood Hbad.
  pose proof (AggregatorMore.parse_outposts_none top body outpost_id fields
                rest good idss bad later Hbody Hracks Hservers Hgood Hbad)
    as Hraise.
  split; [done|].
  rewrite lambda_handler_success; rewrite ?Hzone, ?Hext; try done.
  simpl document. by rewrite Hzones, Hraise.
Qed.

(** An asset without capacities, as the only server of the only
    outpost. *)
Lemma X7_server_without_capacities_raises_witness :
  (exists fields,
      GetOutpostsDetails.asset_info Scenarios.bare_asset = Ok (VDict fields)
      /\ lookup "InstanceType" fields = Some VNone)
  /\ fst (lambda_handler (logging Scenarios.both_succeed_bare)
            Scenarios.event [])
     = Raise TypeError.
Proof.
  split.
  - apply (proj1 X7_server_without_capacities_raises). right.
    eexists. split; reflexivity.
  - refine (proj2 (proj2 X7_server_without_capacities_raises _
             (logging Scenarios.both_succeed_bare) Scenarios.event []
             Scenarios.zones_payload _ _ _ _ _ "op-0123456789abcdef0" []
             [] [] [] eq_refl eq_refl eq_refl eq_refl eq_refl eq_refl _ eq_refl)).
    constructor.
Defined.

(* ================================================================== *)
(** * Further properties of the catalog store and its writers *)
(* ================================================================== *)

Module DynamoFacts.

Import Dynamo.

Lemma has_key_true k it : has_key k it = true <-> key_of it = Some k.
Proof. unfold has_key. apply bool_decide_eq_true. Qed.

Lemma has_key_false k it : has_key k it = false <-> key_of it <> Some k.
Proof. unfold has_key. apply bool_decide_eq_false. Qed.



Lemma keys_upsert k it tbl :
  key_of it = Some k ->
  key_of <$> upsert k it tbl
  = if decide (Some k ∈ key_of <$> tbl) then key_of <$> tbl
    else (key_of <$> tbl) ++ [Some k].
Proof.
  intros Hk. induction tbl as [|old tbl IH]; cbn [upsert].
  - simpl. by rewrite Hk.
  - destruct (has_key k old) eqn:Hold; rewrite !fmap_cons.
    + apply has_key_true in Hold. rewrite Hk, Hold.
      by rewrite decide_True by (by left).
    + apply has_key_false in Hold. rewrite IH.
      destruct (decide (Some k ∈ key_of <$> tbl)) as [Hin|Hout].
      * by rewrite decide_True by (by right).
      * rewrite decide_False; [done|].
        intros [?|?]%elem_of_cons; [congruence|done].
Qed.

Lemma elem_of_upsert k it tbl it' :
  it' ∈ upsert k it tbl -> it' = it \/ it' ∈ tbl.
Proof.
  induction tbl as [|old tbl IH]; simpl.
  - intros ->%list_elem_of_singleton. by left.
  - destruct (has_key k old).
    + intros [->|?]%elem_of_cons; [by left|right; by right].
    + intros [->|Hin]%elem_of_cons; [right; by left|].
      destruct (IH Hin); [by left|right; by right].
Qed.

Lemma well_keyed_upsert k it tbl :
  key_of it = Some k -> well_keyed tbl -> well_keyed (upsert k it tbl).
Proof.
  intros Hk [Hall Hnd]. split.
  - apply Forall_forall. intros it' [->|Hin]%elem_of_upsert; [by rewrite Hk|].
    by apply (proj1 (Forall_forall _ _) Hall).
  - rewrite (keys_upsert k it tbl Hk).
    destruct (decide (Some k ∈ key_of <$> tbl)); [done|].
    apply NoDup_app. split; [done|]. split; [|apply NoDup_singleton].
    by intros ? ? ->%list_elem_of_singleton.
Qed.

Lemma well_keyed_put_item tbl it :
  well_keyed tbl -> well_keyed (snd (put_item tbl it)).
Proof.
  intros Hwk. unfold put_item.
  destruct (key_of it) as [k|] eqn:Hk; [|done].
  by apply well_keyed_upsert.
Qed.



(** ** Batches against the table *)



Lemma put_all_well_keyed items : forall tbl tbl',
  Batch.put_all put_item items tbl = Some tbl' ->
  well_keyed tbl -> well_keyed tbl'.
Proof.
  induction items as [|it items IH]; simpl; intros tbl tbl'.
  - by intros [= ->].
  - pose proof (well_keyed_put_item tbl it) as Hstep.
    destruct (put_item tbl it) as [[[]|e] tbl1]; [|done].
    intros Hrest Hwk. apply (IH _ _ Hrest). by apply Hstep.
Qed.

(** A writer that returned has put every item of its batch. *)
Lemma localzones_written_inv {store : Type}
    (put : store -> item -> result unit * store) zones : forall n m s s',
  GetLocalzonesDetails.write_loop put zones n s = (Ok m, s') ->
  Batch.put_all put (Batch.zone_items zones) s = Some s'
  /\ m = (n + length zones)%nat.
Proof.
  induction zones as [|[name zd] zones IH]; simpl; intros n m s s'.
  - intros [= <- <-]. split; [done|lia].
  - destruct (put s _) as [[[]|e] s1]; [|done].
    intros Hrest. destruct (IH _ _ _ _ Hrest) as [-> ->]. split; [done|lia].
Qed.

Lemma outposts_written_inv {store : Type}
    (put : store -> item -> result unit * store) outposts : forall n m s s',
  GetOutpostsDetails.write_loop put outposts n s = (Ok m, s') ->
  Batch.put_all put (Batch.outpost_items outposts) s = Some s'
  /\ m = (n + length outposts)%nat.
Proof.
  induction outposts as [|[outpost_id data] outposts IH]; simpl;
    intros n m s s'.
  - intros [= <- <-]. split; [done|lia].
  - destruct (put s _) as [[[]|e] s1]; [|done].
    intros Hrest. destruct (IH _ _ _ _ Hrest) as [-> ->]. split; [done|lia].
Qed.

(** A loop of puts keeps what every put keeps, whether it returns or
    raises. *)
Lemma localzones_loop_invariant (P : table -> Prop) zones : forall n tbl,
  (forall tbl it, P tbl -> P (snd (put_item tbl it))) ->
  P tbl ->
  P (snd (GetLocalzonesDetails.write_loop put_item zones n tbl)).
Proof.
  induction zones as [|[name zd] zones IH]; simpl; intros n tbl Hstep HP; [done|].
  pose proof (Hstep tbl (GetLocalzonesDetails.item_of zd) HP) as HP1.
  destruct (put_item tbl _) as [[[]|e] tbl1]; [|done].
  by apply IH.
Qed.

Lemma outposts_loop_invariant (P : table -> Prop) outposts : forall n tbl,
  (forall tbl it, P tbl -> P (snd (put_item tbl it))) ->
  P tbl ->
  P (snd (GetOutpostsDetails.write_loop put_item outposts n tbl)).
Proof.
  induction outposts as [|[outpost_id data] outposts IH];
    intros n tbl Hstep HP; cbn [GetOutpostsDetails.write_loop]; [done|].
  pose proof (Hstep tbl (GetOutpostsDetails.item_of outpost_id data) HP) as HP1.
  destruct (put_item tbl (GetOutpostsDetails.item_of outpost_id data))
    as [[[]|e] tbl1]; [|done].
  by apply IH.
Qed.

(** An outpost's item always has a key: its puts never raise. *)
Lemma put_all_outposts outposts : forall tbl,
  exists tbl',
    Batch.put_all put_item (Batch.outpost_items outposts) tbl = Some tbl'.
Proof.
  induction outposts as [|[outpost_id data] outposts IH]; simpl; intros tbl.
  - by eexists.
  - apply IH.
Qed.

End DynamoFacts.

(** X8. One record per key is an invariant of the catalog: a put
    keeps it, and so does [write_to_dynamo] of either collector, whether
    it returns or raises midway. *)
Theorem X8_one_record_per_key_is_kept :
  (forall (tbl : Dynamo.table) (it : Dynamo.item),
      well_keyed tbl -> well_keyed (snd (Dynamo.put_item tbl it)))
  /\ (forall zones (tbl : Dynamo.table),
        well_keyed tbl ->
        well_keyed
          (snd (GetLocalzonesDetails.write_to_dynamo Dynamo.put_item zones tbl)))
  /\ (forall outposts (tbl : Dynamo.table),
        well_keyed tbl ->
        well_keyed
          (snd (GetOutpostsDetails.write_to_dynamo Dynamo.put_item outposts tbl))).
Proof.
  split; [apply DynamoFacts.well_keyed_put_item|]. split.
  - intros zones tbl Hwk.
    apply (DynamoFacts.localzones_loop_invariant well_keyed);
      [apply DynamoFacts.well_keyed_put_item|done].
  - intros outposts tbl Hwk.
    apply (DynamoFacts.outposts_loop_invariant well_keyed);
      [apply DynamoFacts.well_keyed_put_item|done].
Qed.

(** The same zone written twice into the empty table. *)
Lemma X8_one_record_per_key_is_kept_witness :
  well_keyed
    (snd (GetLocalzonesDetails.write_to_dynamo Dynamo.put_item
            [("us-west-2-lax-1a", Scenarios.lax);
             ("us-west-2-lax-1a", Scenarios.lax)] [])).
Proof.
  apply (proj1 (proj2 X8_one_record_per_key_is_kept)).
  split; constructor.
Defined.









(* ================================================================== *)
(** * Further properties of the lookup handlers *)
(* ================================================================== *)

Module HandlerFacts.

Import Dynamo GetParentAz.

Lemma get_parent_az_table edge_id region tbl :
  snd (get_parent_az edge_id region tbl) = tbl.
Proof. unfold get_parent_az, query. by destruct edge_id. Qed.

(** The [try] block always ends in a reply, and it is never the
    status-400 one. *)
Lemma answer_replies event region edge_id_1 edge_id_2 tbl :
  exists r,
    answer event region edge_id_1 edge_id_2 tbl = (Ok r, tbl)
    /\ r <> MissingParameters.
Proof.
  unfold answer.
  pose proof (get_parent_az_table edge_id_1 region tbl) as H1.
  destruct (get_parent_az edge_id_1 region tbl) as [[r1|e1] tbl1];
    simpl in H1; subst tbl1; [|by eexists].
  pose proof (get_parent_az_table edge_id_2 region tbl) as H2.
  destruct (get_parent_az edge_id_2 region tbl) as [[r2|e2] tbl2];
    simpl in H2; subst tbl2; [|by eexists].
  destruct (getitem event "actionGroup"); simpl; [|by eexists].
  destruct (getitem event "function"); simpl; by eexists.
Qed.

Lemma read_parameters_two entries p1 p2 rest :
  is_Some (lookup "agent" entries) ->
  is_Some (lookup "actionGroup" entries) ->
  is_Some (lookup "function" entries) ->
  default (VList []) (lookup "parameters" entries)
  = VList (VDict p1 :: VDict p2 :: rest) ->
  read_parameters (VDict entries)
  = Ok (default (VStr "us-east-1") (lookup "region" entries),
        default VNone (lookup "value" p1),
        default VNone (lookup "value" p2)).
Proof.
  intros [? Ha] [? Hg] [? Hf] Hp. unfold read_parameters. simpl.
  by rewrite Ha, Hg, Hf, Hp.
Qed.

(** ** Scanning a table page by page *)

Import ReadMyDiscovery.

Lemma scan_loop_table (tbl : table) (limit : nat -> nat) :
  (forall read, 0 < limit read)%nat ->
  forall fuel read (response : page nat),
    LastEvaluatedKey response
    = (if decide (read < length tbl)%nat then Some read else None) ->
    (length tbl - read <= fuel)%nat ->
    scan_loop (scan_table tbl limit) fuel response (take read tbl)
    = Some (Ok tbl).
Proof.
  intros Hlimit fuel. induction fuel as [|fuel IH]; intros read response Hkey Hfuel.
  - destruct response as [its key]. simpl in *. subst key.
    rewrite decide_False by lia. by rewrite take_ge by lia.
  - destruct response as [its key]. simpl in Hkey. subst key.
    cbn [scan_loop LastEvaluatedKey].
    destruct (decide (read < length tbl)%nat) as [Hlt|Hge];
      [|by rewrite take_ge by lia].
    unfold scan_table at 1. cbn [default Items id].
    rewrite take_take_drop. apply IH.
    + cbn [LastEvaluatedKey]. rewrite length_drop.
      pose proof (Hlimit read).
      destruct (decide (limit read < length tbl - read)%nat);
        [by rewrite decide_True by lia|by rewrite decide_False by lia].
    + pose proof (Hlimit read). lia.
Qed.

Lemma read_discovery_table_pages (tbl : table) (limit : nat -> nat) fuel region :
  (forall read, 0 < limit read)%nat ->
  (length tbl <= fuel)%nat ->
  read_discovery_table (scan_table tbl limit) fuel region
  = Some (Ok (discovery_document tbl)).
Proof.
  intros Hlimit Hfuel. unfold read_discovery_table.
  unfold scan_table at 1. cbn [default Items drop id].
  rewrite (scan_loop_table tbl limit Hlimit fuel (limit 0%nat)); [done| |lia].
  cbn [LastEvaluatedKey]. by rewrite drop_0.
Qed.

(** A store whose every response carries a [LastEvaluatedKey] keeps the
    loop going. *)
Lemma scan_loop_endless {cursor : Type}
    (scan : option cursor -> result (page cursor)) :
  (forall start, exists its k, scan start = Ok (Page its (Some k))) ->
  forall fuel response items,
    is_Some (LastEvaluatedKey response) ->
    scan_loop scan fuel response items = None.
Proof.
  intros Hscan fuel.
  induction fuel as [|fuel IH]; intros response items [k Hk]; simpl;
    rewrite Hk; [done|].
  destruct (Hscan (Some k)) as (its & k' & ->). apply IH. by eexists.
Qed.

End HandlerFacts.

(** X13. The Parent-Zone Lookup handler never changes the table,
    whatever the event, and it raises only from the statements that
    read the parameters: once they have gone through it returns a
    reply. *)
Theorem X13_lookup_handler_reads_only :
  forall (event : value) (tbl : Dynamo.table),
    snd (GetParentAz.lambda_handler event tbl) = tbl
    /\ ((exists e, fst (GetParentAz.lambda_handler event tbl) = Raise e)
        <-> exists e, GetParentAz.read_parameters event = Raise e).
Proof.
  intros event tbl. unfold GetParentAz.lambda_handler.
  destruct (GetParentAz.read_parameters event)
    as [[[region edge_id_1] edge_id_2]|e]; simpl.
  - destruct (HandlerFacts.answer_replies event region edge_id_1 edge_id_2 tbl)
      as (r & Hr & _).
    destruct (negb _); simpl; rewrite ?Hr; simpl;
      (split; [done|split; by intros [? ?]]).
  - split; [done|]. split; intros _; by eexists.
Qed.

(** X14. For an agent event with at least two parameter entries, the
    handler answers from the [value] of the first two and ignores the
    rest: the reply is the status-400 one exactly when one of the two
    values is missing, [None], empty or otherwise falsy, and else it is
    another reply; the table is unchanged either way. *)
Theorem X14_missing_parameters_reply :
  forall (entries p1 p2 : list (string * value)) (rest : list value)
         (tbl : Dynamo.table),
    is_Some (lookup "agent" entries) ->
    is_Some (lookup "actionGroup" entries) ->
    is_Some (lookup "function" entries) ->
    default (VList []) (lookup "parameters" entries)
    = VList (VDict p1 :: VDict p2 :: rest) ->
    let edge_id_1 := default VNone (lookup "value" p1) in
    let edge_id_2 := default VNone (lookup "value" p2) in
    (truthy edge_id_1 && truthy edge_id_2 = false ->
     GetParentAz.lambda_handler (VDict entries) tbl
     = (Ok GetParentAz.MissingParameters, tbl))
    /\ (truthy edge_id_1 && truthy edge_id_2 = true ->
        exists r,
          GetParentAz.lambda_handler (VDict entries) tbl = (Ok r, tbl)
          /\ r <> GetParentAz.MissingParameters).
Proof.
  intros entries p1 p2 rest tbl Ha Hg Hf Hp edge_id_1 edge_id_2.
  unfold GetParentAz.lambda_handler.
  rewrite (HandlerFacts.read_parameters_two entries p1 p2 rest Ha Hg Hf Hp).
  fold edge_id_1 edge_id_2. split; intros ->; [done|].
  apply HandlerFacts.answer_replies.
Qed.

(** An agent event whose second parameter has an empty value. *)
Lemma X14_missing_parameters_reply_witness :
  GetParentAz.lambda_handler (VDict Scenarios.empty_value_event)
    Scenarios.catalog
  = (Ok GetParentAz.MissingParameters, Scenarios.catalog).
Proof.
  refine (proj1 (X14_missing_parameters_reply Scenarios.empty_value_event
                   [("name", VStr "edge_id_1"); ("value", VStr "usw2-lax1-az1")]
                   [("name", VStr "edge_id_2"); ("value", VStr "")]
                   [VDict [("name", VStr "edge_id_3"); ("value", VStr "x")]]
                   Scenarios.catalog _ _ _ eq_refl) eq_refl); by eexists.
Defined.

(** X15. [read_discovery_table] follows the continuation keys to the
    end: for a table that [scan] returns in pages of any positive
    sizes, it returns every record, once and in the table's order, with
    [total_items] their number; as many further scans as the table has
    records are always enough. *)
Theorem X15_scan_reads_every_page :
  forall (tbl : Dynamo.table) (limit : nat -> nat) (fuel : nat) (region : value),
    (forall read, 0 < limit read)%nat ->
    (length tbl <= fuel)%nat ->
    ReadMyDiscovery.read_discovery_table
      (ReadMyDiscovery.scan_table tbl limit) fuel region
    = Some (Ok (VDict [("total_items", VInt (Z.of_nat (length tbl)));
                       ("items", VList (VDict <$> tbl))])).
Proof.
  intros tbl limit fuel region Hlimit Hfuel.
  by rewrite HandlerFacts.read_discovery_table_pages.
Qed.

(** Three records in pages of two. *)
Lemma X15_scan_reads_every_page_witness :
  let tbl := [ [("edge_id", VStr "a")]; [("edge_id", VStr "b")];
               [("edge_id", VStr "c")] ] in
  ReadMyDiscovery.read_discovery_table
    (ReadMyDiscovery.scan_table tbl (fun _ => 2%nat)) 3 (VStr "us-east-1")
  = Some (Ok (VDict [("total_items", VInt 3);
                     ("items", VList (VDict <$> tbl))])).
Proof.
  intros tbl.
  refine (X15_scan_reads_every_page tbl (fun _ => 2%nat) 3 (VStr "us-east-1") _ _).
  - intros _. lia.
  - simpl. lia.
Defined.

(** X16. The loop of [read_discovery_table] has no bound of its own:
    against a store whose every response carries a [LastEvaluatedKey]
    it does not end, however many scans are allowed. *)
Theorem X16_scan_without_last_page_does_not_end :
  forall (cursor : Type)
         (scan : option cursor -> result (ReadMyDiscovery.page cursor))
         (fuel : nat) (region : value),
    (forall start,
        exists its k, scan start = Ok (ReadMyDiscovery.Page its (Some k))) ->
    ReadMyDiscovery.read_discovery_table scan fuel region = None
    /\ forall event, exists e,
         ReadMyDiscovery.lambda_handler scan fuel event = None
         \/ ReadMyDiscovery.lambda_handler scan fuel event = Some (Raise e).
Proof.
  intros cursor scan fuel region Hscan.
  assert (forall region,
             ReadMyDiscovery.read_discovery_table scan fuel region = None)
    as Hread.
  { intros region'. unfold ReadMyDiscovery.read_discovery_table.
    destruct (Hscan None) as (its & k & ->).
    rewrite HandlerFacts.scan_loop_endless; [done..|by eexists]. }
  split; [apply Hread|].
  intros event. unfold ReadMyDiscovery.lambda_handler.
  destruct (_ ≫= _) as [region'|e]; [|exists e; by right].
  exists TypeError. left. by rewrite Hread.
Qed.

(** A store that returns the same page for ever. *)
Lemma X16_scan_without_last_page_does_not_end_witness :
  ReadMyDiscovery.read_discovery_table
    (fun _ : option nat => Ok (ReadMyDiscovery.Page [] (Some 0%nat)))
    1000 (VStr "us-east-1")
  = None.
Proof.
  apply (X16_scan_without_last_page_does_not_end nat
           (fun _ => Ok (ReadMyDiscovery.Page [] (Some 0%nat))) 1000).
  intros start. by eexists _, _.
Defined.

(** X17. The discovery handler reads the table outside its [try]: an
    exception of the first scan is raised by the handler, not answered
    with a status-500 dict.  An event without [agent] raises a
    [KeyError] before any scan.  For an agent event and a table read in
    pages of positive sizes the reply is the agent envelope whose text
    is the document of all records. *)
Theorem X17_discovery_handler :
  forall (entries : list (string * value)),
    (lookup "agent" entries = None ->
     forall (cursor : Type)
            (scan : option cursor -> result (ReadMyDiscovery.page cursor)) fuel,
       ReadMyDiscovery.lambda_handler scan fuel (VDict entries)
       = Some (Raise (KeyError (VStr "agent"))))
    /\ (forall agent actionGroup function,
          lookup "agent" entries = Some agent ->
          lookup "actionGroup" entries = Some actionGroup ->
          lookup "function" entries = Some function ->
          (forall (cursor : Type)
                  (scan : option cursor -> result (ReadMyDiscovery.page cursor))
                  fuel e,
              scan None = Raise e ->
              ReadMyDiscovery.lambda_handler scan fuel (VDict entries)
              = Some (Raise e))
          /\ (forall (tbl : Dynamo.table) (limit : nat -> nat) fuel,
                (forall read, 0 < limit read)%nat ->
                (length tbl <= fuel)%nat ->
                ReadMyDiscovery.lambda_handler
                  (ReadMyDiscovery.scan_table tbl limit) fuel (VDict entries)
                = Some (Ok (ReadMyDiscovery.ActionResponse actionGroup function
                              (json_dumps
                                 (ReadMyDiscovery.discovery_document tbl)))))).
Proof.
  intros entries. split.
  - intros Ha cursor scan fuel. unfold ReadMyDiscovery.lambda_handler.
    simpl. by rewrite Ha.
  - intros agent actionGroup function Ha Hg Hf. split.
    + intros cursor scan fuel e He. unfold ReadMyDiscovery.lambda_handler.
      simpl. rewrite Ha, Hg, Hf. simpl.
      unfold ReadMyDiscovery.read_discovery_table. by rewrite He.
    + intros tbl limit fuel Hlimit Hfuel.
      unfold ReadMyDiscovery.lambda_handler. simpl. rewrite Ha, Hg, Hf. simpl.
      by rewrite HandlerFacts.read_discovery_table_pages.
Qed.

(** An agent event against the one-record catalog. *)
Lemma X17_discovery_handler_witness :
  ReadMyDiscovery.lambda_handler
    (ReadMyDiscovery.scan_table Scenarios.catalog (fun _ => 1%nat)) 1
    (VDict Scenarios.short_event)
  = Some (Ok (ReadMyDiscovery.ActionResponse (VStr "edge") (VStr "get_parent_az")
                (json_dumps
                   (ReadMyDiscovery.discovery_document Scenarios.catalog)))).
Proof.
  refine (proj2 (proj2 (X17_discovery_handler Scenarios.short_event)
                   (VDict [("name", VStr "edge-agent")]) (VStr "edge")
                   (VStr "get_parent_az") eq_refl eq_refl eq_refl)
            Scenarios.catalog (fun _ => 1%nat) 1%nat _ _).
  - intros _. lia.
  - simpl. lia.
Defined.

(* ================================================================== *)
(** * Further properties of the collectors *)
(* ================================================================== *)

Module CollectorFacts.

Lemma dict_set_fresh {V : Type} k (v : V) d :
  k ∉ (fst <$> d) -> dict_set k v d = d ++ [(k, v)].
Proof.
  induction d as [|[k' v'] d IH]; simpl; [done|].
  intros Hnotin. apply not_elem_of_cons in Hnotin as [Hne Hnotin].
  rewrite (proj2 (String.eqb_neq k' k)) by congruence.
  by rewrite IH.
Qed.

Lemma keys_dict_set {V : Type} k (v : V) d :
  fst <$> dict_set k v d
  = if decide (k ∈ fst <$> d) then fst <$> d else (fst <$> d) ++ [k].
Proof.
  induction d as [|[k' v'] d IH]; cbn [dict_set]; [done|].
  destruct (String.eqb k' k) eqn:Hk; rewrite !fmap_cons; cbn [fst].
  - apply String.eqb_eq in Hk as ->. by rewrite decide_True by (by left).
  - apply String.eqb_neq in Hk. rewrite IH.
    destruct (decide (k ∈ fst <$> d)) as [Hin|Hout].
    + by rewrite decide_True by (by right).
    + rewrite decide_False; [done|].
      intros [?|?]%elem_of_cons; [congruence|done].
Qed.

Lemma NoDup_dict_set {V : Type} k (v : V) d :
  NoDup (fst <$> d) -> NoDup (fst <$> dict_set k v d).
Proof.
  intros Hnd. rewrite keys_dict_set. destruct (decide _); [done|].
  apply NoDup_app. split; [done|]. split; [|apply NoDup_singleton].
  by intros ? ? ->%list_elem_of_singleton.
Qed.

Section Zones.

Import ZoneCollector.

Variable describe_instance_type_offerings : string -> result (list string).

Local Abbreviation zones_loop :=
  (ZoneCollector.zones_loop describe_instance_type_offerings).

(** Zones with names of their own come out one entry each, in
    order. *)
Lemma zones_loop_distinct (types : availability_zone -> list string) zones :
  forall acc,
    NoDup ((fst <$> acc) ++ (az_ZoneName <$> zones)) ->
    (forall z, z ∈ zones ->
               describe_instance_type_offerings (az_ZoneName z) = Ok (types z)) ->
    zones_loop zones acc
    = Ok (acc ++ ((fun z => (az_ZoneName z, zone_record z (types z))) <$> zones)).
Proof.
  induction zones as [|z zones IH]; intros acc Hnd Hcalls; simpl.
  - by rewrite app_nil_r.
  - rewrite (Hcalls z) by (by left). simpl.
    apply NoDup_app in Hnd as (Hacc & Hdisj & Hzones).
    apply NoDup_cons in Hzones as [Hz Hzones].
    rewrite dict_set_fresh by (intros Hin; apply (Hdisj _ Hin); by left).
    rewrite IH.
    + by rewrite <- app_assoc.
    + rewrite fmap_app. simpl. rewrite <- app_assoc. simpl.
      apply NoDup_app. split; [done|]. split.
      * intros k Hin [->|Hk]%elem_of_cons.
        -- apply (Hdisj _ Hin). by left.
        -- apply (Hdisj _ Hin). by right.
      * by apply NoDup_cons.
    + intros z' Hin. apply Hcalls. by right.
Qed.

(** The first call that raises ends the discovery. *)
Lemma zones_loop_raises before z after e : forall acc,
  (forall z', z' ∈ before ->
              exists ts, describe_instance_type_offerings (az_ZoneName z') = Ok ts) ->
  describe_instance_type_offerings (az_ZoneName z) = Raise e ->
  zones_loop (before ++ z :: after) acc = Raise e.
Proof.
  induction before as [|z' before IH]; intros acc Hbefore Hz; simpl.
  - by rewrite Hz.
  - destruct (Hbefore z') as [ts ->]; [by left|]. simpl.
    apply IH; [|done]. intros z'' Hin. apply Hbefore. by right.
Qed.

Lemma zones_loop_NoDup zones : forall acc report,
  zones_loop zones acc = Ok report ->
  NoDup (fst <$> acc) -> NoDup (fst <$> report).
Proof.
  induction zones as [|z zones IH]; intros acc report; simpl.
  - by intros [= ->].
  - destruct (describe_instance_type_offerings (az_ZoneName z)); [|done].
    simpl. intros Hrest Hnd. apply (IH _ _ Hrest). by apply NoDup_dict_set.
Qed.

End Zones.

Section Outposts.

Import ExtensionCollector.

Variable get_outpost_instance_types : string -> result unit.
Variable list_assets : string -> result (list (list (string * value))).

Local Abbreviation outposts_loop :=
  (ExtensionCollector.outposts_loop get_outpost_instance_types list_assets).

(** Outposts with identifiers of their own come out one entry each,
    in order, when every call returns and every asset is described. *)
Lemma outposts_loop_distinct (servers : outpost -> list value) outposts :
  forall acc,
    NoDup ((fst <$> acc) ++ (op_OutpostId <$> outposts)) ->
    (forall o, o ∈ outposts ->
               get_outpost_instance_types (op_OutpostId o) = Ok ()
               /\ exists assets,
                    list_assets (op_OutpostId o) = Ok assets
                    /\ servers_of assets = Ok (servers o)) ->
    outposts_loop outposts acc
    = Ok (acc ++ ((fun o => (op_OutpostId o, outpost_record o (servers o)))
                    <$> outposts)).
Proof.
  induction outposts as [|o outposts IH]; intros acc Hnd Hcalls; simpl.
  - by rewrite app_nil_r.
  - destruct (Hcalls o) as (-> & assets & -> & Hservers); [by left|]. simpl.
    rewrite Hservers. simpl.
    apply NoDup_app in Hnd as (Hacc & Hdisj & Houtposts).
    apply NoDup_cons in Houtposts as [Ho Houtposts].
    rewrite dict_set_fresh by (intros Hin; apply (Hdisj _ Hin); by left).
    rewrite IH.
    + by rewrite <- app_assoc.
    + rewrite fmap_app. simpl. rewrite <- app_assoc. simpl.
      apply NoDup_app. split; [done|]. split.
      * intros k Hin [->|Hk]%elem_of_cons.
        -- apply (Hdisj _ Hin). by left.
        -- apply (Hdisj _ Hin). by right.
      * by apply NoDup_cons.
    + intros o' Hin. apply Hcalls. by right.
Qed.

End Outposts.

(** The servers of an outpost whose first asset has no capacities. *)
Lemma servers_of_bare asset assets servers :
  ExtensionCollector.servers_of (asset :: assets) = Ok servers ->
  lookup "ComputeAttributes" asset = None ->
  exists fields later,
    servers = VDict fields :: later
    /\ lookup "InstanceType" fields = Some VNone.
Proof.
  unfold ExtensionCollector.servers_of. cbn [for_each].
  intros Hservers Hbare.
  destruct (AggregatorMore.asset_info_without_capacities asset
              (or_introl Hbare)) as (fields & Hinfo & Hnone).
  rewrite Hinfo in Hservers. rewrite !bind_Ok in Hservers.
  cbn [app] in Hservers.
  assert (forall (xs : list (list (string * value))) acc out,
             for_each (fun servers asset =>
                         info ← GetOutpostsDetails.asset_info asset;
                         Ok (servers ++ [info])) xs acc = Ok out ->
             exists more, out = acc ++ more) as Hgrow.
  { induction xs as [|x xs IH]; intros acc out; simpl.
    - intros [= <-]. exists []. by rewrite app_nil_r.
    - destruct (GetOutpostsDetails.asset_info x) as [info|]; [|done]. simpl.
      intros [more ->]%IH. exists (info :: more). by rewrite <- app_assoc. }
  apply Hgrow in Hservers as [more ->]. by exists fields, more.
Qed.

End CollectorFacts.

Module CollectorMore.

Import Dynamo.


Lemma zone_handler_cases {store : Type}
    (put : store -> item -> result unit * store) (str : exn -> string)
    describe offerings entries s :
  let region := default (VStr "us-east-1") (lookup "region" entries) in
  let run := ZoneCollector.lambda_handler describe offerings put str
               (VDict entries) s in
  (exists e s', run = (Ok (failure_response (str e)), s'))
  \/ (exists info s',
        ZoneCollector.get_local_zones_instance_types describe offerings = Ok info
        /\ Batch.put_all put (Batch.zone_items info) s = Some s'
        /\ run = (Ok (GetLocalzonesDetails.success_response region info
                        (length info)), s')).
Proof.
  intros region run. unfold run, ZoneCollector.lambda_handler. simpl.
  destruct (ZoneCollector.get_local_zones_instance_types describe offerings)
    as [info|e]; [|left; by eexists _, _].
  destruct (GetLocalzonesDetails.write_to_dynamo put info s)
    as [[n|e] s'] eqn:Hwrite; [|left; by eexists _, _].
  apply DynamoFacts.localzones_written_inv in Hwrite as [Hput ->].
  right. by eexists _, _.
Qed.

Lemma zones_discovered offerings zones
    (types : ZoneCollector.availability_zone -> list string) :
  NoDup (ZoneCollector.az_ZoneName <$> zones) ->
  (forall z, z ∈ zones ->
             offerings (ZoneCollector.az_ZoneName z) = Ok (types z)) ->
  ZoneCollector.get_local_zones_instance_types (Ok zones) offerings
  = Ok ((fun z => (ZoneCollector.az_ZoneName z,
                   ZoneCollector.zone_record z (types z))) <$> zones).
Proof.
  intros Hnd Hcalls.
  unfold ZoneCollector.get_local_zones_instance_types. simpl.
  by rewrite (CollectorFacts.zones_loop_distinct offerings types zones []).
Qed.

End CollectorMore.

(** X18. [get_local_zones_instance_types] asks for the offerings of
    every listed zone in turn.  When the zone names are distinct and
    every call returns, its result has one entry per zone, in order,
    keyed by the zone name, with [ParentAZ] the zone's [ParentZoneId]
    and [InstanceTypes] the offerings; the first call that raises ends
    the discovery with that exception and no partial result; and the
    result never has two entries with the same name. *)
Theorem X18_zone_discovery :
  forall offerings : string -> result (list string),
    (forall zones (types : ZoneCollector.availability_zone -> list string),
        NoDup (ZoneCollector.az_ZoneName <$> zones) ->
        (forall z, z ∈ zones ->
                   offerings (ZoneCollector.az_ZoneName z) = Ok (types z)) ->
        ZoneCollector.get_local_zones_instance_types (Ok zones) offerings
        = Ok ((fun z =>
                 (ZoneCollector.az_ZoneName z,
                  GetLocalzonesDetails.ZoneData
                    (ZoneCollector.az_ZoneId z) (ZoneCollector.az_RegionName z)
                    (VStr (ZoneCollector.az_ZoneName z))
                    (ZoneCollector.az_ParentZoneId z)
                    (ZoneCollector.az_GroupName z)
                    (ZoneCollector.az_NetworkBorderGroup z)
                    (ZoneCollector.az_OptInStatus z) (types z))) <$> zones))
    /\ (forall before z after e,
          (forall z', z' ∈ before ->
                      exists ts, offerings (ZoneCollector.az_ZoneName z') = Ok ts) ->
          offerings (ZoneCollector.az_ZoneName z) = Raise e ->
          ZoneCollector.get_local_zones_instance_types
            (Ok (before ++ z :: after)) offerings
          = Raise e)
    /\ (forall zones report,
          ZoneCollector.get_local_zones_instance_types (Ok zones) offerings
          = Ok report ->
          NoDup (fst <$> report)).
Proof.
  intros offerings. split; [|split].
  - intros zones types Hnd Hcalls.
    by rewrite (CollectorMore.zones_discovered offerings zones types).
  - intros before z after e Hbefore Hz.
    unfold ZoneCollector.get_local_zones_instance_types. simpl.
    by apply CollectorFacts.zones_loop_raises.
  - intros zones report Hreport.
    apply (CollectorFacts.zones_loop_NoDup offerings zones [] report Hreport).
    constructor.
Qed.

(** One zone listed. *)
Lemma X18_zone_discovery_witness :
  ZoneCollector.get_local_zones_instance_types
    (Ok [CollectorScenarios.aws_lax]) (fun _ => Ok ["r5.xlarge"])
  = Ok [("us-west-2-lax-1a", Scenarios.lax)].
Proof.
  refine (proj1 (X18_zone_discovery (fun _ => Ok ["r5.xlarge"]))
            [CollectorScenarios.aws_lax] (fun _ => ["r5.xlarge"]) _ _).
  - apply NoDup_singleton.
  - by intros z _.
Defined.

(** X19. For an event that is a dict, the zone collector's handler
    never raises.  It replies with the status-500 dict when the
    discovery raises, leaving the store alone; with the status-200 dict,
    [records_written] the number of zones found, when every put goes
    through; and with the status-500 dict when a put raises, although
    the zones before that one are then already in the store. *)
Theorem X19_zone_collector_handler :
  forall (store : Type)
         (put_item : store -> Dynamo.item -> result unit * store)
         (str : exn -> string)
         (describe : result (list ZoneCollector.availability_zone))
         (offerings : string -> result (list string))
         (entries : list (string * value)) (s : store),
    let region := default (VStr "us-east-1") (lookup "region" entries) in
    let discovered :=
      ZoneCollector.get_local_zones_instance_types describe offerings in
    let run :=
      ZoneCollector.lambda_handler describe offerings put_item str
        (VDict entries) s in
    (exists reply s', run = (Ok reply, s'))
    /\ (forall e,
          discovered = Raise e -> run = (Ok (failure_response (str e)), s))
    /\ (forall info s',
          discovered = Ok info ->
          Batch.put_all put_item (Batch.zone_items info) s = Some s' ->
          run = (Ok (GetLocalzonesDetails.success_response region info
                       (length info)), s'))
    /\ (forall before r after s1 e s2,
          discovered = Ok (before ++ r :: after) ->
          Batch.put_all put_item (Batch.zone_items before) s = Some s1 ->
          put_item s1 (GetLocalzonesDetails.item_of (snd r)) = (Raise e, s2) ->
          run = (Ok (failure_response (str e)), s2)).
Proof.
  intros store put_item str describe offerings entries s region discovered run.
  split; [|split; [|split]].
  - destruct (CollectorMore.zone_handler_cases put_item str describe offerings
                entries s) as [(e & s' & H)|(info & s' & _ & _ & H)];
      by eexists _, _.
  - intros e He. unfold run, ZoneCollector.lambda_handler. simpl.
    fold discovered. by rewrite He.
  - intros info s' Hinfo Hput. unfold run, ZoneCollector.lambda_handler. simpl.
    fold discovered. rewrite Hinfo.
    unfold GetLocalzonesDetails.write_to_dynamo.
    by rewrite (BatchFacts.localzones_loop_written put_item info 0 s s' Hput).
  - intros before r after s1 e s2 Hinfo Hbefore Hput.
    unfold run, ZoneCollector.lambda_handler. simpl.
    fold discovered. rewrite Hinfo.
    unfold GetLocalzonesDetails.write_to_dynamo.
    by rewrite (BatchFacts.localzones_loop_blocked put_item before 0 s s1 r
                  after e s2 Hbefore Hput).
Qed.

(** One zone discovered and written; then a zone without [ZoneId]
    after it. *)
Lemma X19_zone_collector_handler_witness :
  ZoneCollector.lambda_handler
    (Ok [CollectorScenarios.aws_lax]) (fun _ => Ok ["r5.xlarge"]) Dynamo.put_item
    (fun _ => "error") (VDict [("region", VStr "us-west-2")]) []
  = (Ok Scenarios.zones_payload, Scenarios.catalog)
  /\ ZoneCollector.lambda_handler
       (Ok [CollectorScenarios.aws_lax; CollectorScenarios.aws_nameless])
       (fun _ => Ok ["r5.xlarge"]) Dynamo.put_item
       (fun _ => "error") (VDict [("region", VStr "us-west-2")]) []
     = (Ok (failure_response "error"), Scenarios.catalog).
Proof.
  split.
  - exact (proj1 (proj2 (proj2 (X19_zone_collector_handler _ Dynamo.put_item
             (fun _ => "error") (Ok [CollectorScenarios.aws_lax])
             (fun _ => Ok ["r5.xlarge"]) [("region", VStr "us-west-2")] [])))
             [("us-west-2-lax-1a", Scenarios.lax)] Scenarios.catalog
             eq_refl eq_refl).
  - exact (proj2 (proj2 (proj2 (X19_zone_collector_handler _ Dynamo.put_item
             (fun _ => "error") (Ok [CollectorScenarios.aws_lax; CollectorScenarios.aws_nameless])
             (fun _ => Ok ["r5.xlarge"]) [("region", VStr "us-west-2")] [])))
             [("us-west-2-lax-1a", Scenarios.lax)] _ [] Scenarios.catalog
             (ClientError "ValidationException") Scenarios.catalog
             eq_refl eq_refl eq_refl).
Defined.





(** X22. The extension collector describes every asset of every listed
    outpost: with distinct identifiers and every call returning, its
    result has one entry per outpost, in order, with the servers of that
    outpost.  Against the table its puts cannot fail, so for an event
    that is a dict its handler replies with status 200 and
    [records_written] the number of outposts whenever the discovery
    returns, and with the status-500 dict, the table untouched, whenever
    the discovery raises. *)
Theorem X22_extension_collector :
  forall (str : exn -> string)
         (list_outposts : result (list ExtensionCollector.outpost))
         (get_outpost_instance_types : string -> result unit)
         (list_assets : string -> result (list (list (string * value))))
         (entries : list (string * value)) (tbl : Dynamo.table),
    let region := default (VStr "us-east-1") (lookup "region" entries) in
    let discovered :=
      ExtensionCollector.get_outposts_info list_outposts
        get_outpost_instance_types list_assets in
    let run :=
      ExtensionCollector.lambda_handler list_outposts
        get_outpost_instance_types list_assets Dynamo.put_item str
        (VDict entries) tbl in
    (forall e, discovered = Raise e -> run = (Ok (failure_response (str e)), tbl))
    /\ (forall info,
          discovered = Ok info ->
          exists tbl',
            run = (Ok (GetOutpostsDetails.success_response region info
                         (length info)), tbl'))
    /\ (forall outposts (servers : ExtensionCollector.outpost -> list value),
          list_outposts = Ok outposts ->
          NoDup (ExtensionCollector.op_OutpostId <$> outposts) ->
          (forall o, o ∈ outposts ->
             get_outpost_instance_types (ExtensionCollector.op_OutpostId o)
             = Ok ()
             /\ exists assets,
                  list_assets (ExtensionCollector.op_OutpostId o) = Ok assets
                  /\ ExtensionCollector.servers_of assets = Ok (servers o)) ->
          discovered
          = Ok ((fun o =>
                   (ExtensionCollector.op_OutpostId o,
                    ExtensionCollector.outpost_record o (servers o)))
                  <$> outposts)).
Proof.
  intros str list_outposts get_types list_assets entries tbl region
    discovered run.
  split; [|split].
  - intros e He. unfold run, ExtensionCollector.lambda_handler. simpl get.
    cbv iota. fold discovered. by rewrite He.
  - intros info Hinfo.
    destruct (DynamoFacts.put_all_outposts info tbl) as [tbl' Hput].
    exists tbl'. unfold run, ExtensionCollector.lambda_handler. simpl get.
    cbv iota. fold discovered. rewrite Hinfo.
    unfold GetOutpostsDetails.write_to_dynamo.
    by rewrite (BatchFacts.outposts_loop_written Dynamo.put_item info 0 tbl tbl'
                  Hput).
  - intros outposts servers Hlist Hnd Hcalls.
    unfold discovered, ExtensionCollector.get_outposts_info. rewrite Hlist.
    simpl.
    by rewrite (CollectorFacts.outposts_loop_distinct get_types list_assets
                  servers outposts []).
Qed.

(** One outpost with one asset. *)
Lemma X22_extension_collector_witness :
  ExtensionCollector.get_outposts_info
    (Ok [CollectorScenarios.aws_outpost]) (fun _ => Ok ())
    (fun _ => Ok [Scenarios.bare_asset])
  = Ok [("op-0123456789abcdef0",
         ExtensionCollector.outpost_record CollectorScenarios.aws_outpost
           [Scenarios.bare_server])].
Proof.
  refine (proj2 (proj2 (X22_extension_collector (fun _ => "error")
            (Ok [CollectorScenarios.aws_outpost]) (fun _ => Ok ())
            (fun _ => Ok [Scenarios.bare_asset]) [] []))
            [CollectorScenarios.aws_outpost] (fun _ => [Scenarios.bare_server])
            eq_refl _ _).
  - apply NoDup_singleton.
  - intros o _. split; [done|]. by eexists.
Defined.

(** X23. The two halves of the repository disagree about an asset
    without capacities: when the first asset of the first listed
    outpost has no [ComputeAttributes] (identifiers distinct, every call
    returning), the extension collector's handler replies with status
    200, and [parse_outposts] raises a [TypeError] on that reply. *)
Theorem X23_collector_reply_the_aggregator_cannot_parse :
  forall (str : exn -> string)
         (get_outpost_instance_types : string -> result unit)
         (list_assets : string -> result (list (list (string * value))))
         (servers : ExtensionCollector.outpost -> list value)
         (entries : list (string * value)) (tbl : Dynamo.table)
         (o : ExtensionCollector.outpost)
         (others : list ExtensionCollector.outpost)
         (bare : list (string * value)) (assets : list (list (string * value))),
    NoDup (ExtensionCollector.op_OutpostId <$> o :: others) ->
    (forall o', o' ∈ o :: others ->
       get_outpost_instance_types (ExtensionCollector.op_OutpostId o') = Ok ()
       /\ exists assets',
            list_assets (ExtensionCollector.op_OutpostId o') = Ok assets'
            /\ ExtensionCollector.servers_of assets' = Ok (servers o')) ->
    list_assets (ExtensionCollector.op_OutpostId o) = Ok (bare :: assets) ->
    lookup "ComputeAttributes" bare = None ->
    exists reply tbl',
      ExtensionCollector.lambda_handler (Ok (o :: others))
        get_outpost_instance_types list_assets Dynamo.put_item str
        (VDict entries) tbl
      = (Ok reply, tbl')
      /\ getitem reply "statusCode" = Ok (VInt 200)
      /\ parse_outposts reply = Raise TypeError.
Proof.
  intros str get_types list_assets servers entries tbl o others bare assets
    Hnd Hcalls Hassets Hbare.
  set (info := (fun o => (ExtensionCollector.op_OutpostId o,
                          ExtensionCollector.outpost_record o (servers o)))
                 <$> o :: others).
  assert (ExtensionCollector.get_outposts_info (Ok (o :: others)) get_types
            list_assets = Ok info) as Hinfo.
  { unfold ExtensionCollector.get_outposts_info. rewrite bind_Ok.
    by rewrite (CollectorFacts.outposts_loop_distinct get_types list_assets
                  servers (o :: others) []). }
  destruct (DynamoFacts.put_all_outposts info tbl) as [tbl' Hput].
  exists (GetOutpostsDetails.success_response
            (default (VStr "us-east-1") (lookup "region" entries)) info
            (length info)), tbl'.
  split; [|split; [done|]].
  - unfold ExtensionCollector.lambda_handler. simpl get. cbv iota.
    rewrite Hinfo. unfold GetOutpostsDetails.write_to_dynamo.
    by rewrite (BatchFacts.outposts_loop_written Dynamo.put_item info 0 tbl tbl'
                  Hput).
  - destruct (Hcalls o) as (_ & assets' & Hassets' & Hservers); [by left|].
    rewrite Hassets in Hassets'. injection Hassets' as <-.
    destruct (CollectorFacts.servers_of_bare bare assets (servers o) Hservers
                Hbare) as (fields & later & Hfields & Hnone).
    unfold GetOutpostsDetails.success_response.
    eapply (AggregatorMore.parse_outposts_none _ _
              (ExtensionCollector.op_OutpostId o)
              (ExtensionCollector.outpost_record o (servers o))
              _ [] [] fields later).
    + reflexivity.
    + reflexivity.
    + simpl. by rewrite Hfields.
    + constructor.
    + done.
Qed.

(** One outpost whose only asset has no [ComputeAttributes] at all. *)
Lemma X23_collector_reply_the_aggregator_cannot_parse_witness :
  exists reply tbl',
    ExtensionCollector.lambda_handler (Ok [CollectorScenarios.aws_outpost])
      (fun _ => Ok ()) (fun _ => Ok [[("AssetId", VStr "1234567890")]])
      Dynamo.put_item (fun _ => "error") (VDict []) []
    = (Ok reply, tbl')
    /\ getitem reply "statusCode" = Ok (VInt 200)
    /\ parse_outposts reply = Raise TypeError.
Proof.
  refine (X23_collector_reply_the_aggregator_cannot_parse (fun _ => "error")
            (fun _ => Ok ()) (fun _ => Ok [[("AssetId", VStr "1234567890")]])
            (fun _ => [VDict [("AssetId", VStr "1234567890");
                              ("AssetType", VNone); ("Status", VNone);
                              ("Host_Family", VNone); ("InstanceType", VNone)]])
            [] [] CollectorScenarios.aws_outpost []
            [("AssetId", VStr "1234567890")] [] _ _ eq_refl eq_refl).
  - apply NoDup_singleton.
  - intros o' _. split; [done|]. by eexists.
Defined.
